(** * Aave wallet credit scoring: feature engineering and score normalisation

  A shallow embedding of [src/main.py], [src/model.py] and
  [src/features.py].

  Numbers are the program's own: every score, amount and ratio is a
  NumPy [float64], embedded as Rocq's primitive binary64 [float]
  (IEEE 754, round to nearest even, with NaN, infinities and signed
  zeros), so [1000 * (r - lo) / (hi - lo)] below rounds exactly as it does
  in the program.  Timestamps are pandas [datetime64[ns]] values, embedded
  as the [Z] number of nanoseconds they hold.

  What the repository calls but does not contain is a parameter
  ([Externals]): the JSON parser, Python's [float] on text, pandas'
  date parser, and the histogram and entropy routines.  The fitted model
  (scikit-learn's [IsolationForest] and [StandardScaler]) is outside the
  repository too; the scoring functions are embedded from the point where
  [decision_function] has returned the array of raw anomaly scores. *)

From Stdlib Require Import Floats ZArith List Bool Lia String Ascii DecimalString.
From Stdlib Require Uint63.
From Stdlib Require Import Permutation Sorted.
Import ListNotations.

Set Warnings "-inexact-float,-register-all".

(** ** Python strings *)

Module Py.

(** [str.lower()] on ASCII text. *)
Definition lower_char (c : ascii) : ascii :=
  let n := nat_of_ascii c in
  if (65 <=? n)%nat && (n <=? 90)%nat then ascii_of_nat (n + 32) else c.

Fixpoint lower (s : string) : string :=
  match s with
  | EmptyString => EmptyString
  | String c s' => String (lower_char c) (lower s')
  end.

(** [pat in s]; it is also what [Series.str.contains(pat)] computes for a
    pattern without regular-expression metacharacters. *)
Fixpoint contains (s pat : string) : bool :=
  prefix pat s ||
  match s with
  | EmptyString => false
  | String _ s' => contains s' pat
  end.

(** The lines a text file yields when iterated, each with its newline. *)
Fixpoint lines_from (cur : string) (s : string) : list string :=
  match s with
  | EmptyString => match cur with EmptyString => [] | _ => [cur] end
  | String c s' =>
      if Ascii.eqb c "010"%char
      then (cur ++ String c EmptyString)%string :: lines_from EmptyString s'
      else lines_from (cur ++ String c EmptyString)%string s'
  end.

Definition lines (s : string) : list string := lines_from EmptyString s.

End Py.

(** ** NumPy and pandas primitives *)

Module Np.
Local Open Scope float_scope.

(** [np.minimum] / [np.maximum]: the first argument is returned when it is
    NaN, so NaN propagates through a reduction. *)
Definition minimum (a b : float) : float :=
  if (a <=? b) || is_nan a then a else b.

Definition maximum (a b : float) : float :=
  if (b <=? a) || is_nan a then a else b.

(** [ndarray.min()] and [ndarray.max()]: a reduction with [minimum] /
    [maximum]; on an empty array NumPy raises [ValueError] ([None]). *)
Definition min (a : list float) : option float :=
  match a with
  | [] => None
  | x :: rest => Some (fold_left minimum rest x)
  end.

Definition max (a : list float) : option float :=
  match a with
  | [] => None
  | x :: rest => Some (fold_left maximum rest x)
  end.

(** [np.clip(a, a_min, a_max)], documented as
    [np.minimum(a_max, np.maximum(a, a_min))]. *)
Definition clip (a : list float) (a_min a_max : float) : list float :=
  map (fun x => minimum a_max (maximum x a_min)) a.

(** Conversion of an [int64] to [float64], correctly rounded; it is meant
    for magnitudes below [2^63], which is every [int64] but the smallest. *)
Definition float_of_int (z : Z) : float :=
  if (0 <=? z)%Z then of_uint63 (Uint63.of_Z z)
  else - of_uint63 (Uint63.of_Z (- z)).

(** [int64] arithmetic wraps around. *)
Definition wrap64 (z : Z) : Z :=
  ((z + 9223372036854775808) mod 18446744073709551616 - 9223372036854775808)%Z.

(** [np.diff] on an [int64] array: consecutive differences. *)
Fixpoint diff (a : list Z) : list Z :=
  match a with
  | x :: (y :: _) as rest => wrap64 (y - x) :: diff rest
  | _ => []
  end.

End Np.

Module Pd.
Local Open Scope float_scope.

(** pandas' missing timestamp [NaT], the smallest [int64]. *)
Definition iNaT : Z := (-9223372036854775808)%Z.

(** [Series.dropna()] on a float series. *)
Definition dropna (s : list float) : list float :=
  filter (fun x => negb (is_nan x)) s.

(** [Series.sum()], [Series.mean()], [Series.max()] and [Series.std()]
    (sample standard deviation, [ddof=1]); all skip NaN, and accumulate in
    index order. *)
Definition sum (s : list float) : float :=
  fold_left PrimFloat.add (dropna s) 0.

Definition mean (s : list float) : float :=
  sum s / Np.float_of_int (Z.of_nat (List.length (dropna s))).

Definition max (s : list float) : float :=
  match dropna s with
  | [] => nan
  | x :: rest => fold_left Np.maximum rest x
  end.

Definition std (s : list float) : float :=
  let v := dropna s in
  let count := Z.of_nat (List.length v) in
  if (count <=? 1)%Z then nan
  else
    let avg := sum v / Np.float_of_int count in
    PrimFloat.sqrt (sum (map (fun x => (avg - x) * (avg - x)) v)
          / Np.float_of_int (count - 1)).

(** [Series.sort_values()] on timestamps, ascending. *)
Fixpoint insert_sorted (t : Z) (s : list Z) : list Z :=
  match s with
  | [] => [t]
  | u :: rest => if (t <=? u)%Z then t :: s else u :: insert_sorted t rest
  end.

Fixpoint sort_values (s : list Z) : list Z :=
  match s with
  | [] => []
  | t :: rest => insert_sorted t (sort_values rest)
  end.

(** [Series.diff()] on timestamps: the first entry is missing ([NaT]),
    every other entry is the difference with the entry before it (taken
    exactly: the gaps of timestamps pandas can hold in ascending order are
    below [2^64], and those of one protocol's history far below [2^63]). *)
Fixpoint diff_from (prev : Z) (s : list Z) : list (option Z) :=
  match s with
  | [] => []
  | t :: rest => Some (t - prev)%Z :: diff_from t rest
  end.

Definition diff (s : list Z) : list (option Z) :=
  match s with
  | [] => []
  | t :: rest => None :: diff_from t rest
  end.

(** [.dt.total_seconds()]: nanoseconds over [10**9] in [float64], NaN for
    a missing entry. *)
Definition total_seconds (d : option Z) : float :=
  match d with
  | None => nan
  | Some ns => Np.float_of_int ns / 1e9
  end.

End Pd.

(** ** Data model *)

(** A JSON value, as [json.loads] returns it and as the cells of the
    transactions frame hold it. *)
Inductive json : Type :=
| JNull
| JBool (b : bool)
| JNum (x : float)
| JStr (s : string)
| JArr (items : list json)
| JObj (fields : list (string * json)).

(** A Python dict with text keys, in insertion order. *)
Definition dict (A : Type) : Type := list (string * A).

Fixpoint dict_get {A : Type} (d : dict A) (k : string) : option A :=
  match d with
  | [] => None
  | (k', v) :: rest => if String.eqb k k' then Some v else dict_get rest k
  end.

Definition dict_keys {A : Type} (d : dict A) : list string := map fst d.

(** The library routines the repository calls. *)
Class Externals : Type := {
  (** [json.load] / [json.loads]; [None] is [json.JSONDecodeError]. *)
  json_loads : string -> option json;
  (** Python's [float] on text; [None] is [ValueError]. *)
  float_of_str : string -> option float;
  (** [pd.to_datetime] on one entry, in nanoseconds ([NaT] for a missing
      one); [None] when it raises. *)
  to_datetime : json -> option Z;
  (** [entropy(hist / hist.sum())] for
      [hist = np.histogram(deltas, bins=10)[0]]. *)
  histogram_entropy : list Z -> float
}.

(** Exceptions that leave a function. *)
Inductive exn : Type :=
| FileNotFoundError
| IsADirectoryError
| TypeError
| KeyError
| ValueError.

Inductive result (A : Type) : Type :=
| Ok (a : A)
| Raise (e : exn).
Arguments Ok {A} a.
Arguments Raise {A} e.

(** The transactions frame: its column labels, and a record per row
    (a label without an entry in a record is a missing cell). *)
Record DataFrame : Type := {
  columns : list string;
  records : list (dict json)
}.

Definition cell (row : dict json) (col : string) : json :=
  match dict_get row col with
  | Some v => v
  | None => JNull
  end.

Definition column (df_rows : list (dict json)) (col : string) : list json :=
  map (fun row => cell row col) df_rows.

Definition has_column (cols : list string) (col : string) : bool :=
  existsb (String.eqb col) cols.

(** [next((col for col in candidates if col in columns), None)]. *)
Definition first_present (candidates cols : list string) : option string :=
  find (has_column cols) candidates.

(** All results of [f] over [l], or [None] as soon as one fails. *)
Fixpoint traverse {A B : Type} (f : A -> option B) (l : list A) : option (list B) :=
  match l with
  | [] => Some []
  | a :: rest =>
      match f a with
      | None => None
      | Some b =>
          match traverse f rest with
          | None => None
          | Some bs => Some (b :: bs)
          end
      end
  end.

(** The five lending actions of both feature modules. *)
Definition ACTIONS : list string :=
  ["deposit"; "borrow"; "repay"; "redeem"; "liquidation"]%string.

(** [.sum()] of a boolean series with missing entries: the number of
    [True]. *)
Definition sum_bool (s : list (option bool)) : Z :=
  fold_left (fun acc b => match b with Some true => acc + 1 | _ => acc end)%Z s 0%Z.

(** ** [src/features.py] *)

Module Features.
Local Open Scope float_scope.

(** A row of the frame [calculate_wallet_features] indexes: it reads the
    columns ['type'], ['block_timestamp'] and ['amount_usd'], and
    [generate_all_features] groups by ['user']. *)
Record Transaction : Type := {
  user : string;
  type : string;
  block_timestamp : Z;
  amount_usd : float
}.

(** [wallet_transactions['type'].str.lower().str.contains(action).sum()]. *)
Definition action_count (wallet_transactions : list Transaction) (action : string) : Z :=
  sum_bool (map (fun t => Some (Py.contains (Py.lower (type t)) action))
                wallet_transactions).

(** [wallet_transactions[wallet_transactions['type'].str.lower() == name]['amount_usd']]. *)
Definition amounts_of (wallet_transactions : list Transaction) (name : string) : list float :=
  map amount_usd
      (filter (fun t => String.eqb (Py.lower (type t)) name) wallet_transactions).

Record WalletFeatures : Type := {
  total_txs : Z;
  (** the entries [f'{action}_count'], one per action of the loop *)
  action_counts : dict Z;
  first_activity : Z;
  last_activity : Z;
  time_between_txs_mean : float;
  time_between_txs_std : float;
  total_deposit_value : float;
  total_borrow_value : float;
  borrow_to_deposit_ratio : float
}.

Definition calculate_wallet_features (wallet_transactions : list Transaction)
  : WalletFeatures :=
  let timestamps_sorted := Pd.sort_values (map block_timestamp wallet_transactions) in
  let time_deltas := Pd.dropna (map Pd.total_seconds (Pd.diff timestamps_sorted)) in
  let many := (1 <? List.length timestamps_sorted)%nat in
  let deposit_value := Pd.sum (amounts_of wallet_transactions "deposit") in
  let borrow_value := Pd.sum (amounts_of wallet_transactions "borrow") in
  {| total_txs := Z.of_nat (List.length wallet_transactions);
     action_counts :=
       map (fun action => ((action ++ "_count")%string,
                           action_count wallet_transactions action)) ACTIONS;
     first_activity := hd Pd.iNaT timestamps_sorted;
     last_activity := last timestamps_sorted Pd.iNaT;
     time_between_txs_mean := if many then Pd.mean time_deltas else 0;
     time_between_txs_std := if many then Pd.std time_deltas else 0;
     total_deposit_value := deposit_value;
     total_borrow_value := borrow_value;
     (* Safe division to prevent zero division error *)
     borrow_to_deposit_ratio := borrow_value / (deposit_value + 1e-6) |}.

(** The group keys of [groupby('user')]: the distinct users, in ascending
    order of their text. *)
Fixpoint insert_key (k : string) (ks : list string) : list string :=
  match ks with
  | [] => [k]
  | k' :: rest => if String.leb k k' then k :: ks else k' :: insert_key k rest
  end.

Fixpoint sort_keys (ks : list string) : list string :=
  match ks with
  | [] => []
  | k :: rest => insert_key k (sort_keys rest)
  end.

Definition group_keys (transactions_df : list Transaction) : list string :=
  sort_keys (nodup string_dec (map user transactions_df)).

(** [generate_all_features]: a row per group, made of the wallet's features
    and the entry ['wallet']. *)
Definition generate_all_features (transactions_df : list Transaction)
  : list (string * WalletFeatures) :=
  map (fun wallet =>
         let txs := filter (fun t => String.eqb (user t) wallet) transactions_df in
         (wallet, calculate_wallet_features txs))
      (group_keys transactions_df).

End Features.

(** ** [src/model.py] *)

Module Model.
Local Open Scope float_scope.

(** [predict_scores], from the value of
    [raw_scores = model.decision_function(X_scaled)] on:
<<
    min_score, max_score = raw_scores.min(), raw_scores.max()
    normalized_scores = 1000 * (raw_scores - min_score) / (max_score - min_score)
    return normalized_scores
>>
    [None] is the [ValueError] of [min()] on an empty array. *)
Definition predict_scores (raw_scores : list float) : option (list float) :=
  match Np.min raw_scores, Np.max raw_scores with
  | Some min_score, Some max_score =>
      Some (map (fun r => 1000 * (r - min_score) / (max_score - min_score))
                raw_scores)
  | _, _ => None
  end.

End Model.

(** ** [src/main.py] *)

Module Main.
Local Open Scope float_scope.

(** A file system as [load_data] sees it: what a path names, if anything. *)
Inductive fs_entry : Type :=
| File (content : string)
| Directory.

(** [len(data)], which the success message of [load_data] evaluates. *)
Definition py_len (data : json) : option nat :=
  match data with
  | JArr items => Some (List.length items)
  | JObj fields => Some (List.length fields)
  | JStr s => Some (String.length s)
  | _ => None
  end.

(** [load_data].  The value returned stands for [pd.DataFrame(data)]: it is
    the [data] handed to the constructor. *)
Definition load_data `{Externals} (fs : string -> option fs_entry) (filepath : string)
  : result json :=
  match fs filepath with
  | None => Raise FileNotFoundError
  | Some Directory => Raise IsADirectoryError
  | Some (File content) =>
      match json_loads content with
      | Some data =>
          match py_len data with
          | Some _ => Ok data
          | None => Raise TypeError
          end
      | None =>
          (* except json.JSONDecodeError: line by line, skipping bad lines *)
          Ok (JArr (flat_map (fun line =>
                                match json_loads line with
                                | Some v => [v]
                                | None => []
                                end)
                             (Py.lines content)))
      end
  end.

(** A value of the feature dict. *)
Inductive fval : Type :=
| VInt (n : Z)
| VFloat (x : float)
| VTime (t : Z)
| VKey (k : json).

(** Python's [float(v)]. *)
Definition py_float `{Externals} (v : json) : option float :=
  match v with
  | JNum x => Some x
  | JStr s => float_of_str s
  | JBool b => Some (if b then 1 else 0)
  | _ => None
  end.

(** [float(x['amount']) * float(x.get('assetPriceUSD', 1))]; [None] when it
    raises. *)
Definition usd_amount `{Externals} (x : json) : option float :=
  match x with
  | JObj fields =>
      match dict_get fields "amount" with
      | Some a =>
          match py_float a with
          | Some amount =>
              let p := match dict_get fields "assetPriceUSD" with
                       | Some p => p
                       | None => JNum 1
                       end in
              match py_float p with
              | Some price => Some (amount * price)
              | None => None
              end
          | None => None
          end
      | None => None
      end
  | _ => None
  end.

(** [calculate_entropy]. *)
Definition calculate_entropy `{Externals} (timestamps : list Z) : float :=
  if (List.length timestamps <? 2)%nat then 0
  else histogram_entropy (Np.diff (Pd.sort_values timestamps)).

(** [timestamps.min()] and [timestamps.max()], which skip [NaT]. *)
Definition time_min (timestamps : list Z) : Z :=
  match filter (fun t => negb (t =? Pd.iNaT)%Z) timestamps with
  | [] => Pd.iNaT
  | t :: rest => fold_left Z.min rest t
  end.

Definition time_max (timestamps : list Z) : Z :=
  match filter (fun t => negb (t =? Pd.iNaT)%Z) timestamps with
  | [] => Pd.iNaT
  | t :: rest => fold_left Z.max rest t
  end.

(** [series.str.lower().str.contains(action)]: missing for a cell that is
    not text. *)
Definition str_contains (series : list json) (action : string) : list (option bool) :=
  map (fun c => match c with
                | JStr s => Some (Py.contains (Py.lower s) action)
                | _ => None
                end) series.

Definition action_count (series : list json) (action : string) : Z :=
  sum_bool (str_contains series action).

(** Cells as dict keys and group keys. *)
Definition hashable (c : json) : bool :=
  match c with
  | JArr _ | JObj _ => false
  | _ => true
  end.

Definition is_null (c : json) : bool :=
  match c with
  | JNull => true
  | JNum x => is_nan x
  | _ => false
  end.

Definition key_eqb (a b : json) : bool :=
  match a, b with
  | JNum x, JNum y => (x =? y)
  | JStr s, JStr t => String.eqb s t
  | JBool p, JBool q => Bool.eqb p q
  | _, _ => false
  end.

(** The distinct values of a series, in order of first appearance. *)
Fixpoint unique (series : list json) : list json :=
  match series with
  | [] => []
  | c :: rest => c :: filter (fun d => negb (key_eqb c d)) (unique rest)
  end.

(** [Series.nunique()]: the number of distinct values that are not
    missing; [None] is the [TypeError] of an unhashable cell. *)
Definition nunique (series : list json) : option Z :=
  if forallb hashable series
  then Some (Z.of_nat (List.length (unique (filter (fun c => negb (is_null c)) series))))
  else None.

(** [calculate_wallet_features]: the feature dict of one wallet from the
    rows of its group ([cols] are the frame's column labels); [Raise] when
    an exception leaves the function. *)
Definition calculate_wallet_features `{Externals}
    (cols : list string) (wallet_transactions : list (dict json))
  : result (dict fval) :=
  let features := [("total_txs", VInt (Z.of_nat (List.length wallet_transactions)))]%string in
  (* Extract from actionData if available *)
  let features :=
    if has_column cols "actionData" then
      match traverse usd_amount (column wallet_transactions "actionData") with
      | Some amounts =>
          features ++ [("total_usd_volume", VFloat (Pd.sum amounts));
                       ("avg_usd_amount", VFloat (Pd.mean amounts));
                       ("max_usd_amount", VFloat (Pd.max amounts))]%string
      | None => features  (* except Exception: the three entries are left out *)
      end
    else features in
  (* Temporal features *)
  let temporal :=
    match first_present ["timestamp"; "block_timestamp"; "createdAt"]%string cols with
    | Some timestamp_col =>
        match traverse to_datetime (column wallet_transactions timestamp_col) with
        | Some timestamps =>
            Ok [("first_activity", VTime (time_min timestamps));
                ("last_activity", VTime (time_max timestamps));
                ("tx_entropy", VFloat (calculate_entropy timestamps))]%string
        | None => Raise ValueError
        end
    | None => Ok []
    end in
  match temporal with
  | Raise e => Raise e
  | Ok temporal =>
      let features := features ++ temporal in
      (* Action counts and ratios *)
      let features :=
        match first_present ["action"; "type"]%string cols with
        | Some action_col =>
            let series := column wallet_transactions action_col in
            let features :=
              features ++
              map (fun action => ((action ++ "_count")%string,
                                  VInt (action_count series action))) ACTIONS in
            (* Financial health ratios *)
            if has_column (dict_keys features) "total_usd_volume" then
              features ++
              [("borrow_ratio",
                VFloat (Np.float_of_int (action_count series "borrow")
                        / (Np.float_of_int (action_count series "deposit") + 1e-6)))]%string
            else features
        | None => features
        end in
      (* Bot-like behavior detection *)
      if has_column cols "txHash" then
        match nunique (column wallet_transactions "txHash") with
        | Some n => Ok (features ++ [("unique_tx_senders", VInt n)]%string)
        | None => Raise TypeError
        end
      else Ok features
  end.

(** The features frame [pd.DataFrame(features)]: the labels are the keys of
    the dicts in order of first appearance, and a row holds NaN under a label
    its dict lacks. *)
Record FeaturesFrame : Type := {
  f_columns : list string;
  f_rows : list (list fval)
}.

Fixpoint union_keys (seen : list string) (ds : list (dict fval)) : list string :=
  match ds with
  | [] => seen
  | d :: rest =>
      union_keys (seen ++ filter (fun k => negb (has_column seen k)) (dict_keys d)) rest
  end.

Definition DataFrame_of_dicts (ds : list (dict fval)) : FeaturesFrame :=
  let cols := union_keys [] ds in
  {| f_columns := cols;
     f_rows := map (fun d => map (fun c => match dict_get d c with
                                           | Some v => v
                                           | None => VFloat nan
                                           end) cols) ds |}.

(** The value of a row under a label ([KeyError] is not needed: it is only
    read under labels the frame has). *)
Fixpoint row_get (cols : list string) (row : list fval) (c : string) : fval :=
  match cols, row with
  | k :: cols', v :: row' => if String.eqb c k then v else row_get cols' row' c
  | _, _ => VFloat nan
  end.

(** [(last - first).dt.total_seconds() / 86400] for one row. *)
Definition wallet_age_days (first_activity last_activity : fval) : fval :=
  match first_activity, last_activity with
  | VTime f, VTime l =>
      if (f =? Pd.iNaT)%Z || (l =? Pd.iNaT)%Z then VFloat nan
      else VFloat (Pd.total_seconds (Some (l - f)%Z) / 86400)
  | _, _ => VFloat nan
  end.

(** [generate_features]. *)
Definition generate_features `{Externals} (transactions_df : DataFrame)
  : result FeaturesFrame :=
  match first_present ["userWallet"; "user"; "address"; "userId"]%string
                      (columns transactions_df) with
  | None => Raise KeyError
  | Some wallet_col =>
      let keys := column (records transactions_df) wallet_col in
      if negb (forallb hashable keys) then Raise TypeError
      else
        (* groupby: one group per wallet that is not missing *)
        let wallets := unique (filter (fun c => negb (is_null c)) keys) in
        let features :=
          flat_map
            (fun wallet =>
               let txs := filter (fun row => key_eqb wallet (cell row wallet_col))
                                 (records transactions_df) in
               match calculate_wallet_features (columns transactions_df) txs with
               | Ok f => [(("wallet", VKey wallet) :: f)%string]
               | Raise _ => []   (* except Exception: continue *)
               end)
            wallets in
        let features_df := DataFrame_of_dicts features in
        (* Post-processing *)
        let features_df :=
          if has_column (f_columns features_df) "first_activity"
             && has_column (f_columns features_df) "last_activity"
          then
            {| f_columns := f_columns features_df ++ ["wallet_age_days"%string];
               f_rows :=
                 map (fun row =>
                        row ++ [wallet_age_days
                                  (row_get (f_columns features_df) row "first_activity")
                                  (row_get (f_columns features_df) row "last_activity")])
                     (f_rows features_df) |}
          else features_df in
        (* features_df.describe() refuses a frame without columns *)
        match f_columns features_df with
        | [] => Raise ValueError
        | _ => Ok features_df
        end
  end.

(** [generate_scores], from the value of [raw_scores] on:
<<
    scores = 1000 * (raw_scores - raw_scores.min()) / (raw_scores.max() - raw_scores.min())
    return np.clip(scores, 0, 1000)
>>
    [None] is the [ValueError] of [min()] on an empty array. *)
Definition generate_scores (raw_scores : list float) : option (list float) :=
  match Np.min raw_scores, Np.max raw_scores with
  | Some lo, Some hi =>
      let scores := map (fun r => 1000 * (r - lo) / (hi - lo)) raw_scores in
      Some (Np.clip scores 0 1000)
  | _, _ => None
  end.

(** [train_model] up to the call of the scaler: the columns it selects and
    the matrix it hands over.
<<
    exclude_cols = ['wallet', 'first_activity', 'last_activity']
    numeric_cols = [col for col in features_df.columns
                   if col not in exclude_cols and pd.api.types.is_numeric_dtype(features_df[col])]
    X = features_df[numeric_cols].fillna(0)
>> *)
Definition exclude_cols : list string :=
  ["wallet"; "first_activity"; "last_activity"]%string.

Definition column_values (features_df : FeaturesFrame) (col : string) : list fval :=
  map (fun row => row_get (f_columns features_df) row col) (f_rows features_df).

(** A column is numeric when it holds integers and floats only (a column
    without rows has dtype [object]). *)
Definition is_numeric_dtype (cells : list fval) : bool :=
  match cells with
  | [] => false
  | _ => forallb (fun v => match v with VInt _ | VFloat _ => true | _ => false end) cells
  end.

Definition numeric_cols (features_df : FeaturesFrame) : list string :=
  filter (fun col => negb (has_column exclude_cols col)
                     && is_numeric_dtype (column_values features_df col))
         (f_columns features_df).

(** A cell of [features_df[feature_names].fillna(0)], as the scaler reads
    it. *)
Definition fillna_0 (v : fval) : float :=
  match v with
  | VInt n => Np.float_of_int n
  | VFloat x => if is_nan x then 0 else x
  | _ => nan
  end.

(** [features_df[feature_names].fillna(0)]; [None] is the [KeyError] of a
    name that is not a column. *)
Definition select_fillna (features_df : FeaturesFrame) (feature_names : list string)
  : option (list (list float)) :=
  if forallb (has_column (f_columns features_df)) feature_names
  then Some (map (fun row =>
                    map (fun col => fillna_0 (row_get (f_columns features_df) row col))
                        feature_names)
                 (f_rows features_df))
  else None.

End Main.

(** ** [src/analysis.py] *)

Module Analysis.
Local Open Scope float_scope.

(** [list(range(start, stop, 100))] for the two ranges of the report. *)
Definition range_by_100 (count : nat) : list Z :=
  map (fun i => (100 * Z.of_nat i)%Z) (seq 0 count).

(** [bins = list(range(0, 1100, 100))]. *)
Definition bins : list Z := range_by_100 11.

(** Python's [str] on a non-negative integer. *)
Definition str_of_int (n : Z) : string :=
  NilEmpty.string_of_uint (N.to_uint (Z.to_N n)).

(** [labels = [f"{i}-{i+99}" for i in range(0, 1000, 100)]]. *)
Definition labels : list string :=
  map (fun i => (str_of_int i ++ "-" ++ str_of_int (i + 99))%string) (range_by_100 10).

(** [pd.cut(x, bins=bins, labels=labels)] on one value: the label of the
    interval [(bins[i], bins[i+1]]] that holds it (intervals are closed on
    the right and the lowest edge is not included), missing otherwise. *)
Fixpoint cut (x : float) (edges : list Z) (names : list string) : option string :=
  match edges, names with
  | lo :: (hi :: _) as rest, name :: names' =>
      if (Np.float_of_int lo <? x) && (x <=? Np.float_of_int hi) then Some name
      else cut x rest names'
  | _, _ => None
  end.

(** The column [scores_df['score_range']]. *)
Definition score_range (credit_score : list float) : list (option string) :=
  map (fun s => cut s bins labels) credit_score.

(** [scores_df.groupby('score_range').size().reset_index(name='count')]: a
    row per label with the number of scores in its range. *)
Definition stats (credit_score : list float) : list (string * nat) :=
  map (fun name =>
         (name,
          List.length
            (filter (fun r => match r with
                              | Some n => String.eqb n name
                              | None => false
                              end)
                    (score_range credit_score))))
      labels.

End Analysis.

(** ** Vocabulary of the statements *)

Local Open Scope float_scope.

(** A score is within the advertised range when both comparisons hold;
    both are false on NaN. *)
Definition in_range (s : float) : bool := (0 <=? s) && (s <=? 1000).

(** What [np.clip(scores, 0, 1000)] does to one score. *)
Definition clip_score (x : float) : float :=
  Np.minimum 1000 (Np.maximum x 0).

(** The specification's reading of [time_between_txs_mean]: the gaps, in
    seconds, between consecutive timestamps of an ascending sequence, and
    their arithmetic mean. *)
Fixpoint gaps_in_seconds (ascending : list Z) : list float :=
  match ascending with
  | t :: (u :: _) as rest => (Np.float_of_int (u - t) / 1e9) :: gaps_in_seconds rest
  | _ => []
  end.





(** A stand-in for the libraries, enough to evaluate the examples: the
    parser reads the documents [{}] and [[]] (with or without a final
    newline), no text is a number, a missing timestamp converts to [NaT]
    and nothing else converts, and the entropy is not looked at. *)
Definition example_externals : Externals := {|
  json_loads := fun s =>
    if String.eqb s "{}" || String.eqb s (String "{" (String "}" (String "010" EmptyString)))
    then Some (JObj [])
    else if String.eqb s "[]" || String.eqb s (String "[" (String "]" (String "010" EmptyString)))
    then Some (JArr [])
    else None;
  float_of_str := fun _ => None;
  to_datetime := fun v => match v with JNull => Some Pd.iNaT | _ => None end;
  histogram_entropy := fun _ => 0
|}.

(** Two one-row transaction frames with the same columns; the second
    [actionData] lacks its ['amount']. *)
Definition frame_with_amount : DataFrame := {|
  columns := ["userWallet"; "actionData"; "action"]%string;
  records :=
    [[("userWallet", JStr "0xA");
      ("actionData", JObj [("amount", JNum 5); ("assetPriceUSD", JNum 2)]%string);
      ("action", JStr "deposit")]%string]
|}.



(** A file system holding one file. *)
Definition one_file (path content : string) : string -> option Main.fs_entry :=
  fun p => if String.eqb p path then Some (Main.File content) else None.

(** * Facts about binary64 arithmetic

    Derived from the specification of the primitive operations
    ([FloatAxioms]): how the comparisons behave, and that rounding never
    turns a non-negative exact result into a negative one or NaN, nor a
    positive one into zero. *)

Module Binary64.
Local Open Scope float_scope.

Lemma SFcompare_antisym (x y : spec_float) :
  SFcompare y x = option_map CompOpp (SFcompare x y).
Proof.
  destruct x as [sx|sx| |sx mx ex], y as [sy|sy| |sy my ey]; simpl;
    try destruct sx; try destruct sy; try reflexivity.
  - rewrite (Z.compare_antisym ex ey).
    destruct (ex ?= ey)%Z; simpl; try reflexivity.
    change (Pos.compare_cont Eq my mx) with (my ?= mx)%positive.
    change (Pos.compare_cont Eq mx my) with (mx ?= my)%positive.
    rewrite (Pos.compare_antisym mx my). now rewrite CompOpp_involutive.
  - rewrite (Z.compare_antisym ex ey).
    destruct (ex ?= ey)%Z; simpl; try reflexivity.
    change (Pos.compare_cont Eq my mx) with (my ?= mx)%positive.
    change (Pos.compare_cont Eq mx my) with (mx ?= my)%positive.
    now rewrite (Pos.compare_antisym mx my).
Qed.

Lemma SFcompare_refl (x : spec_float) :
  x <> S754_nan -> SFcompare x x = Some Eq.
Proof.
  destruct x as [s|s| |s m e]; simpl; intros H; try congruence;
    destruct s; try reflexivity;
    rewrite Z.compare_refl, Pos.compare_cont_refl; reflexivity.
Qed.

Lemma is_nan_spec (x : float) : is_nan x = true <-> Prim2SF x = S754_nan.
Proof.
  unfold is_nan. rewrite FloatAxioms.eqb_spec. unfold SFeqb.
  destruct (Prim2SF x) as [s|s| |s m e] eqn:E;
    try (rewrite SFcompare_refl by discriminate; simpl; split; discriminate).
  simpl. split; reflexivity.
Qed.

Lemma is_nan_false (x : float) : is_nan x = false <-> Prim2SF x <> S754_nan.
Proof.
  rewrite <- is_nan_spec. destruct (is_nan x); split; congruence.
Qed.

(** Order facts through the specification. *)
Lemma leb_total (x y : float) :
  is_nan x = false -> is_nan y = false -> (x <=? y) = false -> (y <=? x) = true.
Proof.
  rewrite !is_nan_false, !FloatAxioms.leb_spec. unfold SFleb.
  rewrite (SFcompare_antisym (Prim2SF x) (Prim2SF y)).
  intros Hx Hy.
  destruct (SFcompare (Prim2SF x) (Prim2SF y)) as [[]|] eqn:E; simpl; try congruence.
  destruct (Prim2SF x), (Prim2SF y); simpl in E; try congruence.
Qed.

Lemma SFcompare_eq (x y : spec_float) :
  SFcompare x y = Some Eq ->
  match x, y with
  | S754_zero _, S754_zero _ => True
  | _, _ => x = y
  end.
Proof.
  destruct x as [sx|sx| |sx mx ex], y as [sy|sy| |sy my ey]; simpl;
    try destruct sx; try destruct sy; try discriminate; try reflexivity; auto;
    destruct (ex ?= ey)%Z eqn:Ee; try discriminate;
    apply Z.compare_eq in Ee; subst ey;
    change (Pos.compare_cont Eq mx my) with (mx ?= my)%positive;
    destruct (mx ?= my)%positive eqn:Em; try discriminate;
    apply Pos.compare_eq in Em; subst my; reflexivity.
Qed.

(** * Rounding keeps signs *)

Local Open Scope Z_scope.


Abbreviation emin64 := (SpecFloat.emin prec emax).

Lemma emin64_val : emin64 = -1074.
Proof. reflexivity. Qed.

Lemma digits2_pos_size (p : positive) : digits2_pos p = Pos.size p.
Proof. induction p; simpl; congruence. Qed.

Lemma digits2_pos_lower (p : positive) : 2 ^ (Zpos (digits2_pos p) - 1) <= Zpos p.
Proof.
  induction p as [p IH|p IH|]; simpl digits2_pos.
  - rewrite Pos2Z.inj_succ. replace (Z.succ (Zpos (digits2_pos p)) - 1) with (Z.succ (Zpos (digits2_pos p) - 1)) by lia.
    rewrite Z.pow_succ_r by lia. lia.
  - rewrite Pos2Z.inj_succ. replace (Z.succ (Zpos (digits2_pos p)) - 1) with (Z.succ (Zpos (digits2_pos p) - 1)) by lia.
    rewrite Z.pow_succ_r by lia. lia.
  - simpl. lia.
Qed.

Lemma digits2_pos_upper (p : positive) : Zpos p < 2 ^ Zpos (digits2_pos p).
Proof.
  induction p as [p IH|p IH|]; simpl digits2_pos.
  - rewrite Pos2Z.inj_succ, Z.pow_succ_r by lia. lia.
  - rewrite Pos2Z.inj_succ, Z.pow_succ_r by lia. lia.
  - simpl. lia.
Qed.

Lemma shr_1_m (mrs : shr_record) :
  0 <= shr_m mrs -> shr_m (shr_1 mrs) = shr_m mrs / 2.
Proof.
  destruct mrs as [m r s]. simpl. intros Hm.
  rewrite <- Z.div2_div.
  destruct m as [|[p|p|]|p]; try reflexivity; lia.
Qed.

Lemma iter_pos_shr_m (p : positive) : forall mrs,
  0 <= shr_m mrs ->
  shr_m (SpecFloat.iter_pos shr_1 p mrs) = shr_m mrs / 2 ^ Zpos p.
Proof.
  induction p as [p IH|p IH|]; intros mrs Hm; simpl SpecFloat.iter_pos.
  - assert (H1 : 0 <= shr_m (shr_1 mrs)) by (rewrite shr_1_m by assumption; apply Z.div_pos; lia).
    assert (H2 : 0 <= shr_m (SpecFloat.iter_pos shr_1 p (shr_1 mrs)))
      by (rewrite IH by assumption; apply Z.div_pos; [assumption | apply Z.pow_pos_nonneg; lia]).
    rewrite IH, IH, shr_1_m by assumption.
    rewrite !Z.div_div by (try apply Z.pow_pos_nonneg; lia).
    f_equal. change (2 * (2 ^ Zpos p * 2 ^ Zpos p)) with (2 ^ 1 * (2 ^ Zpos p * 2 ^ Zpos p)).
    rewrite <- !Z.pow_add_r by lia. f_equal. lia.
  - assert (H2 : 0 <= shr_m (SpecFloat.iter_pos shr_1 p mrs))
      by (rewrite IH by assumption; apply Z.div_pos; [assumption | apply Z.pow_pos_nonneg; lia]).
    rewrite IH, IH by assumption.
    rewrite !Z.div_div by (try apply Z.pow_pos_nonneg; lia).
    f_equal. rewrite <- !Z.pow_add_r by lia. f_equal. lia.
  - rewrite shr_1_m by assumption. reflexivity.
Qed.

Lemma shr_record_of_loc_m (m : Z) (l : location) : shr_m (shr_record_of_loc m l) = m.
Proof. destruct l as [|[]]; reflexivity. Qed.

Lemma shr_fexp_nonneg (m e : Z) (l : location) :
  0 <= m -> 0 <= shr_m (fst (shr_fexp prec emax m e l)).
Proof.
  intros Hm. unfold shr_fexp, shr.
  destruct (fexp prec emax (Zdigits2 m + e) - e) as [|p|p]; simpl;
    rewrite ?iter_pos_shr_m, shr_record_of_loc_m; rewrite ?shr_record_of_loc_m; try lia.
  apply Z.div_pos; [lia | apply Z.pow_pos_nonneg; lia].
Qed.

Lemma shr_fexp_pos (m e : Z) (l : location) :
  0 < m -> emin64 <= e ->
  0 < shr_m (fst (shr_fexp prec emax m e l)) /\ emin64 <= snd (shr_fexp prec emax m e l).
Proof.
  intros Hm He. unfold shr_fexp, shr.
  destruct (fexp prec emax (Zdigits2 m + e) - e) as [|p|p] eqn:En; simpl;
    rewrite ?shr_record_of_loc_m; try (split; lia).
  rewrite iter_pos_shr_m; rewrite shr_record_of_loc_m; try lia.
  split; [|lia].
  destruct m as [|q|q]; try lia. simpl Zdigits2 in En.
  unfold fexp in En. rewrite emin64_val in *. unfold prec in En.
  assert (Hp : Zpos p = Zpos (digits2_pos q) - 53) by lia.
  pose proof (digits2_pos_lower q) as Hl.
  assert (2 ^ Zpos p <= 2 ^ (Zpos (digits2_pos q) - 1)) by (apply Z.pow_le_mono_r; lia).
  apply Z.div_str_pos. split; [apply Z.pow_pos_nonneg; lia | lia].
Qed.

Lemma round_nearest_even_ge (m : Z) (l : location) : m <= round_nearest_even m l.
Proof. destruct l as [|[]]; simpl; try lia. destruct (Z.even m); lia. Qed.

Definition nonneg_sf (x : spec_float) : Prop :=
  match x with
  | S754_zero _ | S754_finite false _ _ | S754_infinity false => True
  | _ => False
  end.

Definition pos_sf (x : spec_float) : Prop :=
  match x with
  | S754_finite false _ _ | S754_infinity false => True
  | _ => False
  end.

Lemma binary_round_aux_nonneg (m e : Z) (l : location) :
  0 <= m -> nonneg_sf (binary_round_aux prec emax false m e l).
Proof.
  intros Hm. unfold binary_round_aux.
  pose proof (shr_fexp_nonneg m e l Hm) as H1.
  destruct (shr_fexp prec emax m e l) as [mrs' e'] eqn:E1. simpl in H1.
  pose proof (round_nearest_even_ge (shr_m mrs') (loc_of_shr_record mrs')) as H2.
  pose proof (shr_fexp_nonneg (round_nearest_even (shr_m mrs') (loc_of_shr_record mrs')) e' loc_Exact ltac:(lia)) as H3.
  destruct (shr_fexp prec emax _ e' loc_Exact) as [mrs'' e''] eqn:E2. simpl in H3.
  destruct (shr_m mrs'') as [|q|q]; simpl; try lia; auto.
  destruct (e'' <=? _); simpl; auto.
Qed.

Lemma binary_round_aux_pos (m e : Z) (l : location) :
  0 < m -> emin64 <= e -> pos_sf (binary_round_aux prec emax false m e l).
Proof.
  intros Hm He. unfold binary_round_aux.
  pose proof (shr_fexp_pos m e l Hm He) as [H1 H1e].
  destruct (shr_fexp prec emax m e l) as [mrs' e'] eqn:E1. simpl in H1, H1e.
  pose proof (round_nearest_even_ge (shr_m mrs') (loc_of_shr_record mrs')) as H2.
  pose proof (shr_fexp_pos (round_nearest_even (shr_m mrs') (loc_of_shr_record mrs')) e' loc_Exact ltac:(lia) H1e) as [H3 _].
  destruct (shr_fexp prec emax _ e' loc_Exact) as [mrs'' e''] eqn:E2. simpl in H3.
  destruct (shr_m mrs'') as [|q|q]; simpl; try lia; auto.
  destruct (e'' <=? _); simpl; auto.
Qed.

Lemma shl_align_exp (m : positive) (e e' : Z) :
  snd (shl_align m e e') = Z.min e e'.
Proof.
  unfold shl_align. destruct (e' - e) eqn:E; simpl; lia.
Qed.

Lemma iter_xO_pow (d m : positive) : Zpos (Pos.iter xO m d) = Zpos m * 2 ^ Zpos d.
Proof.
  induction d as [|d IH] using Pos.peano_ind.
  - simpl. lia.
  - rewrite Pos.iter_succ, Pos2Z.inj_xO, IH, Pos2Z.inj_succ, Z.pow_succ_r by lia. ring.
Qed.

Lemma shl_align_fst (m : positive) (e e' : Z) :
  e' <= e -> Zpos (fst (shl_align m e e')) = Zpos m * 2 ^ (e - e').
Proof.
  intros H. unfold shl_align. destruct (e' - e) as [|d|d] eqn:E; cbn [fst]; try lia.
  - replace (e - e') with 0 by lia. lia.
  - rewrite iter_xO_pow. f_equal. f_equal. lia.
Qed.

Lemma binary_round_nonneg (m : positive) (e : Z) :
  nonneg_sf (binary_round prec emax false m e).
Proof.
  unfold binary_round.
  destruct (shl_align m e _) as [mz ez].
  apply binary_round_aux_nonneg. lia.
Qed.

Lemma binary_round_pos (m : positive) (e : Z) :
  emin64 <= e -> pos_sf (binary_round prec emax false m e).
Proof.
  intros He. unfold binary_round.
  pose proof (shl_align_exp m e (fexp prec emax (Zpos (digits2_pos m) + e))) as Hs.
  destruct (shl_align m e _) as [mz ez]. simpl in Hs.
  apply binary_round_aux_pos; [lia|].
  subst ez. unfold fexp. lia.
Qed.

Lemma binary_normalize_nonneg (z e : Z) :
  0 <= z -> nonneg_sf (binary_normalize prec emax z e false).
Proof.
  destruct z as [|p|p]; simpl; intros H; try lia; try exact I; apply binary_round_nonneg.
Qed.

Lemma binary_normalize_pos (z e : Z) :
  0 < z -> emin64 <= e -> pos_sf (binary_normalize prec emax z e false).
Proof.
  destruct z as [|p|p]; simpl; intros H He; try lia. now apply binary_round_pos.
Qed.

Lemma pos_nonneg_sf (x : spec_float) : pos_sf x -> nonneg_sf x.
Proof. destruct x as [s|[]| |[] m e]; simpl; auto. Qed.

(** Canonical representation of the finite values of a primitive float. *)
Lemma bounded_inv (m : positive) (e : Z) :
  bounded prec emax m e = true ->
  emin64 <= e /\ Zpos (digits2_pos m) <= 53 /\ (emin64 < e -> Zpos (digits2_pos m) = 53).
Proof.
  unfold bounded, canonical_mantissa, fexp. rewrite emin64_val. unfold prec.
  intros H. apply andb_true_iff in H as [H _]. apply Z.eqb_eq in H. lia.
Qed.

Lemma Prim2SF_finite_inv (x : float) (s : bool) (m : positive) (e : Z) :
  Prim2SF x = S754_finite s m e ->
  emin64 <= e /\ Zpos (digits2_pos m) <= 53 /\ (emin64 < e -> Zpos (digits2_pos m) = 53).
Proof.
  intros H. pose proof (Prim2SF_valid x) as V. rewrite H in V. now apply bounded_inv.
Qed.

Definition valid_sf (x : spec_float) : Prop :=
  match x with
  | S754_finite _ m e => emin64 <= e /\ Zpos (digits2_pos m) <= 53 /\ (emin64 < e -> Zpos (digits2_pos m) = 53)
  | _ => True
  end.

Lemma Prim2SF_valid_sf (x : float) : valid_sf (Prim2SF x).
Proof.
  destruct (Prim2SF x) eqn:E; simpl; auto. eapply Prim2SF_finite_inv; eauto.
Qed.

Lemma SFadd_nonneg (x y : spec_float) :
  nonneg_sf x -> nonneg_sf y -> nonneg_sf (SF64add x y).
Proof.
  unfold SF64add.
  destruct x as [sx|[]| |[] mx ex], y as [sy|[]| |[] my ey];
    cbn [nonneg_sf SFadd cond_Zopp]; try tauto; intros _ _.
  - destruct sx, sy; exact I.
  - apply binary_normalize_nonneg. lia.
Qed.

Lemma SFadd_pos_r (x y : spec_float) :
  valid_sf x -> valid_sf y ->
  nonneg_sf x -> pos_sf y -> pos_sf (SF64add x y).
Proof.
  unfold SF64add.
  destruct x as [sx|[]| |[] mx ex], y as [sy|[]| |[] my ey];
    cbn [nonneg_sf pos_sf valid_sf SFadd cond_Zopp]; try tauto.
  intros Vx Vy _ _.
  apply binary_normalize_pos; lia.
Qed.

(** Two canonical finite values compare as the integers they scale to. *)
Lemma finite_lt_aligned (sx sy : bool) (mx my : positive) (ex ey : Z) :
  valid_sf (S754_finite sx mx ex) -> valid_sf (S754_finite sy my ey) ->
  SFcompare (S754_finite sy my ey) (S754_finite sx mx ex) = Some Lt ->
  cond_Zopp sy (Zpos (fst (shl_align my ey (Z.min ex ey)))) <
  cond_Zopp sx (Zpos (fst (shl_align mx ex (Z.min ex ey)))).
Proof.
  cbn [valid_sf]. rewrite emin64_val. intros (Hxe & Hxd & Hxn) (Hye & Hyd & Hyn) Hc.
  rewrite !shl_align_fst by lia.
  pose proof (digits2_pos_lower mx) as Lx. pose proof (digits2_pos_upper mx) as Ux.
  pose proof (digits2_pos_lower my) as Ly. pose proof (digits2_pos_upper my) as Uy.
  assert (P53 : forall d, d <= 53 -> 2 ^ d <= 2 ^ 53) by (intros; apply Z.pow_le_mono_r; lia).
  assert (Hgap : forall a b (m n : positive),
             a < b -> Zpos (digits2_pos n) = 53 -> Zpos (digits2_pos m) <= 53 ->
             2 ^ (Zpos (digits2_pos n) - 1) <= Zpos n -> Zpos m < 2 ^ Zpos (digits2_pos m) ->
             Zpos m * 2 ^ (a - Z.min b a) < Zpos n * 2 ^ (b - Z.min b a)).
  { intros a b m n Hab Hn Hm Ln Um.
    rewrite Z.min_r by lia. rewrite Z.sub_diag, Z.mul_1_r.
    rewrite Hn in Ln. change (53 - 1) with 52 in Ln.
    assert (2 ^ 1 <= 2 ^ (b - a)) by (apply Z.pow_le_mono_r; lia).
    change (2 ^ 1) with 2 in *.
    specialize (P53 _ Hm). change (2 ^ 53) with (2 * 2 ^ 52) in P53.
    nia. }
  simpl in Hc.
  destruct sx, sy; cbn [cond_Zopp]; try discriminate.
  - (* both negative *)
    destruct (ey ?= ex) eqn:E; try discriminate.
    + apply Z.compare_eq in E. subst ey.
      change (Pos.compare_cont Eq my mx) with (my ?= mx)%positive in Hc.
      destruct (my ?= mx)%positive eqn:Em; try discriminate.
      rewrite Z.min_id, Z.sub_diag, !Z.mul_1_r.
      apply Pos.compare_gt_iff in Em. lia.
    + apply Z.compare_gt_iff in E.
      pose proof (Hgap ex ey mx my E (Hyn ltac:(lia)) Hxd Ly Ux) as G.
      rewrite (Z.min_comm ey ex) in G. lia.
  - (* y negative, x positive *)
    assert (0 < Zpos mx * 2 ^ (ex - Z.min ex ey)) by (apply Z.mul_pos_pos; [lia | apply Z.pow_pos_nonneg; lia]).
    assert (0 < Zpos my * 2 ^ (ey - Z.min ex ey)) by (apply Z.mul_pos_pos; [lia | apply Z.pow_pos_nonneg; lia]).
    lia.
  - (* both positive *)
    destruct (ey ?= ex) eqn:E; try discriminate.
    + apply Z.compare_eq in E. subst ey.
      change (Pos.compare_cont Eq my mx) with (my ?= mx)%positive in Hc.
      destruct (my ?= mx)%positive eqn:Em; try discriminate.
      rewrite Z.min_id, Z.sub_diag, !Z.mul_1_r.
      exact Em.
    + rewrite Z.compare_lt_iff in E.
      exact (Hgap ey ex my mx E (Hxn ltac:(lia)) Hyd Lx Uy).
Qed.

Definition finite_sf (x : spec_float) : Prop :=
  match x with
  | S754_zero _ | S754_finite _ _ _ => True
  | _ => False
  end.

Lemma SFsub_pos (x y : spec_float) :
  valid_sf x -> valid_sf y -> finite_sf x -> finite_sf y ->
  SFcompare y x = Some Lt -> pos_sf (SF64sub x y).
Proof.
  unfold SF64sub.
  destruct x as [sx|sx| |sx mx ex], y as [sy|sy| |sy my ey];
    cbn [finite_sf SFsub pos_sf]; try tauto; intros Vx Vy _ _ Hc.
  - discriminate.
  - simpl in Hc. destruct sy; try discriminate. exact I.
  - simpl in Hc. destruct sx; try discriminate. exact I.
  - pose proof (finite_lt_aligned _ _ _ _ _ _ Vx Vy Hc) as Hlt.
    apply binary_normalize_pos; [lia|].
    cbn [valid_sf] in Vx, Vy. lia.
Qed.

Lemma SFsub_eq_zero (x y : spec_float) :
  finite_sf x -> finite_sf y -> SFcompare x y = Some Eq ->
  exists s, SF64sub x y = S754_zero s.
Proof.
  unfold SF64sub. intros Fx Fy Hc.
  pose proof (SFcompare_eq _ _ Hc) as He.
  destruct x as [sx|sx| |sx mx ex], y as [sy|sy| |sy my ey];
    cbn [finite_sf] in Fx, Fy; try tauto; try discriminate.
  - cbn [SFsub]. destruct sx, sy; eauto.
  - injection He as -> -> ->. cbn [SFsub].
    rewrite Z.sub_diag. cbn [binary_normalize]. eauto.
Qed.

Local Open Scope float_scope.

Lemma Prim2SF_zero : Prim2SF 0 = S754_zero false.
Proof. reflexivity. Qed.

Lemma Prim2SF_1000 : Prim2SF 1000 = S754_finite false 8796093022208000 (-43).
Proof. vm_compute. reflexivity. Qed.

Lemma Prim2SF_infinity : Prim2SF infinity = S754_infinity false.
Proof. reflexivity. Qed.

Lemma leb_zero_spec (x : float) : (0 <=? x) = true <-> nonneg_sf (Prim2SF x).
Proof.
  rewrite FloatAxioms.leb_spec, Prim2SF_zero. unfold SFleb.
  destruct (Prim2SF x) as [s|[]| |[] m e]; simpl; split; intros H; try discriminate; tauto.
Qed.

Lemma ltb_zero_spec (x : float) : (0 <? x) = true <-> pos_sf (Prim2SF x).
Proof.
  rewrite FloatAxioms.ltb_spec, Prim2SF_zero. unfold SFltb.
  destruct (Prim2SF x) as [s|[]| |[] m e]; simpl; split; intros H; try discriminate; tauto.
Qed.

Lemma is_finite_spec (x : float) : is_finite x = true <-> finite_sf (Prim2SF x).
Proof.
  unfold is_finite, is_infinity.
  rewrite negb_true_iff, orb_false_iff, is_nan_false.
  rewrite FloatAxioms.eqb_spec, abs_spec, Prim2SF_infinity. unfold SFeqb.
  destruct (Prim2SF x) as [s|s| |s m e]; simpl; split; intros H; try tauto; try (destruct H; congruence).
  all: split; [discriminate | reflexivity].
Qed.

Lemma add_nonneg (a b : float) :
  (0 <=? a) = true -> (0 <=? b) = true -> (0 <=? a + b) = true.
Proof.
  rewrite !leb_zero_spec, add_spec. apply SFadd_nonneg.
Qed.

Lemma add_pos_r (a b : float) :
  (0 <=? a) = true -> (0 <? b) = true -> (0 <? a + b) = true.
Proof.
  rewrite leb_zero_spec, !ltb_zero_spec, add_spec.
  apply SFadd_pos_r; apply Prim2SF_valid_sf.
Qed.

Lemma sub_pos (a b : float) :
  is_finite a = true -> is_finite b = true -> (b <? a) = true -> (0 <? a - b) = true.
Proof.
  rewrite !is_finite_spec, ltb_zero_spec, sub_spec, FloatAxioms.ltb_spec.
  unfold SFltb. intros Fa Fb Hc.
  apply SFsub_pos; auto using Prim2SF_valid_sf.
  destruct (SFcompare (Prim2SF b) (Prim2SF a)) as [[]|]; try discriminate. reflexivity.
Qed.

Lemma sub_eqb_zero (a b : float) :
  is_finite a = true -> is_finite b = true -> (a =? b) = true ->
  exists s, Prim2SF (a - b) = S754_zero s.
Proof.
  rewrite !is_finite_spec, sub_spec, FloatAxioms.eqb_spec.
  unfold SFeqb. intros Fa Fb Hc.
  apply SFsub_eq_zero; auto.
  destruct (SFcompare (Prim2SF a) (Prim2SF b)) as [[]|]; try discriminate. reflexivity.
Qed.

Lemma mul_1000_zero (z : float) (s : bool) :
  Prim2SF z = S754_zero s -> Prim2SF (1000 * z) = S754_zero s.
Proof.
  intros H. rewrite mul_spec, Prim2SF_1000, H. reflexivity.
Qed.

Lemma div_zero_pos (z d : float) (s : bool) :
  Prim2SF z = S754_zero s -> (0 <? d) = true -> Prim2SF (z / d) = S754_zero s.
Proof.
  rewrite ltb_zero_spec. intros H Hd. rewrite div_spec, H.
  destruct (Prim2SF d) as [sd|[]| |[] m e]; simpl in Hd; try tauto;
    unfold SF64div; cbn [SFdiv]; now rewrite xorb_false_r.
Qed.


Lemma leb_not_nan_l (a b : float) : (a <=? b) = true -> is_nan a = false.
Proof.
  rewrite FloatAxioms.leb_spec, is_nan_false. unfold SFleb.
  destruct (Prim2SF a); simpl; congruence.
Qed.

Lemma leb_not_nan_r (a b : float) : (a <=? b) = true -> is_nan b = false.
Proof.
  rewrite FloatAxioms.leb_spec, is_nan_false. unfold SFleb.
  destruct (Prim2SF a), (Prim2SF b); simpl; congruence.
Qed.

Lemma leb_antisym (a b : float) :
  (a <=? b) = true -> (b <=? a) = true -> (a =? b) = true.
Proof.
  rewrite !FloatAxioms.leb_spec, FloatAxioms.eqb_spec. unfold SFleb, SFeqb.
  rewrite (SFcompare_antisym (Prim2SF a) (Prim2SF b)).
  destruct (SFcompare (Prim2SF a) (Prim2SF b)) as [[]|]; simpl; congruence.
Qed.

Lemma eqb_refl_not_nan (a : float) : is_nan a = false -> (a =? a) = true.
Proof. unfold is_nan. now rewrite negb_false_iff. Qed.

Lemma ltb_leb (a b : float) : (a <? b) = true -> (a <=? b) = true.
Proof.
  rewrite FloatAxioms.ltb_spec, FloatAxioms.leb_spec. unfold SFltb, SFleb.
  destruct (SFcompare (Prim2SF a) (Prim2SF b)) as [[]|]; congruence.
Qed.

Lemma ltb_1000_nonneg (s : float) : (1000 <? s) = true -> (0 <=? s) = true.
Proof.
  rewrite FloatAxioms.ltb_spec, leb_zero_spec, Prim2SF_1000. unfold SFltb.
  destruct (Prim2SF s) as [z|[]| |[] m e]; simpl; try discriminate; auto.
Qed.

Lemma clip_score_in_range (s : float) :
  in_range s = true -> (clip_score s =? s) = true.
Proof.
  unfold in_range, clip_score, Np.maximum, Np.minimum. rewrite andb_true_iff.
  intros [H0 H1]. rewrite H0. cbn [orb].
  change (is_nan 1000) with false. rewrite orb_false_r.
  destruct (1000 <=? s) eqn:E.
  - now apply leb_antisym.
  - apply eqb_refl_not_nan. eapply leb_not_nan_l; eauto.
Qed.

Lemma clip_score_nan (s : float) : is_nan s = true -> clip_score s = s.
Proof.
  intros H. unfold clip_score, Np.maximum, Np.minimum. rewrite H, orb_true_r.
  change (is_nan 1000) with false. rewrite orb_false_r.
  destruct (1000 <=? s) eqn:E; [|reflexivity].
  apply leb_not_nan_r in E. congruence.
Qed.

Lemma clip_score_above (s : float) : (1000 <? s) = true -> clip_score s = 1000.
Proof.
  intros H. unfold clip_score, Np.maximum, Np.minimum.
  rewrite (ltb_1000_nonneg _ H). cbn [orb]. now rewrite (ltb_leb _ _ H).
Qed.

Lemma clip_score_range_or_nan (s : float) :
  is_nan (clip_score s) = true \/ in_range (clip_score s) = true.
Proof.
  destruct (is_nan s) eqn:Hn.
  - left. now rewrite clip_score_nan.
  - right. unfold clip_score, Np.maximum, Np.minimum. rewrite Hn, orb_false_r.
    change (is_nan 1000) with false. rewrite orb_false_r.
    set (t := if 0 <=? s then s else 0).
    assert (Ht : (0 <=? t) = true) by (subst t; destruct (0 <=? s) eqn:E; [exact E | reflexivity]).
    destruct (1000 <=? t) eqn:E; [reflexivity|].
    unfold in_range. rewrite Ht. cbn [andb].
    apply leb_total; auto. eapply leb_not_nan_r; eauto.
Qed.

Lemma fold_minimum_In (l : list float) : forall x, In (fold_left Np.minimum l x) (x :: l).
Proof.
  induction l as [|y l IH]; intros x; simpl; [auto|].
  specialize (IH (Np.minimum x y)). simpl in IH.
  unfold Np.minimum in IH at 1. destruct ((x <=? y) || is_nan x); destruct IH as [H|H]; auto.
Qed.

Lemma fold_maximum_In (l : list float) : forall x, In (fold_left Np.maximum l x) (x :: l).
Proof.
  induction l as [|y l IH]; intros x; simpl; [auto|].
  specialize (IH (Np.maximum x y)). simpl in IH.
  unfold Np.maximum in IH at 1. destruct ((y <=? x) || is_nan x); destruct IH as [H|H]; auto.
Qed.

Lemma min_In (a : list float) (lo : float) : Np.min a = Some lo -> In lo a.
Proof.
  destruct a as [|x l]; simpl; [discriminate|]. intros [= <-]. apply fold_minimum_In.
Qed.

Lemma max_In (a : list float) (hi : float) : Np.max a = Some hi -> In hi a.
Proof.
  destruct a as [|x l]; simpl; [discriminate|]. intros [= <-]. apply fold_maximum_In.
Qed.

Lemma SFdiv_core_nonneg (m1 m2 : positive) (e1 e2 : Z) :
  (0 <= fst (fst (SFdiv_core_binary prec emax (Zpos m1) e1 (Zpos m2) e2)))%Z.
Proof.
  unfold SFdiv_core_binary.
  set (s := (e1 - e2 - _)%Z).
  set (m' := match s with Zpos _ => Z.shiftl (Zpos m1) s | Z0 => Zpos m1 | Zneg _ => Z0 end).
  assert (Hm : (0 <= m')%Z).
  { subst m'. destruct s; try lia. apply Z.shiftl_nonneg. lia. }
  pose proof (Z.div_pos m' (Zpos m2) Hm ltac:(lia)) as Hq.
  unfold Z.div in Hq. destruct (Z.div_eucl m' (Zpos m2)) as [q r]. exact Hq.
Qed.


Lemma div_nonneg_finite (x d : float) :
  (0 <=? x) = true -> (0 <? d) = true -> is_finite d = true -> (0 <=? x / d) = true.
Proof.
  rewrite !leb_zero_spec, ltb_zero_spec, is_finite_spec, div_spec.
  unfold SF64div.
  destruct (Prim2SF x) as [sx|[]| |[] mx ex], (Prim2SF d) as [sd|[]| |[] md ed];
    cbn [pos_sf nonneg_sf finite_sf SFdiv xorb]; try tauto; intros _ _ _.
  pose proof (SFdiv_core_nonneg mx md ex ed) as Hq.
  destruct (SFdiv_core_binary prec emax (Zpos mx) ex (Zpos md) ed) as [[mz ez] lz].
  apply binary_round_aux_nonneg. exact Hq.
Qed.


Lemma clip_score_not_nan_in_range (s : float) : is_nan s = false -> in_range (clip_score s) = true.
Proof.
  intros Hn. destruct (clip_score_range_or_nan s) as [H|H]; [|exact H].
  exfalso. revert H. unfold clip_score, Np.maximum, Np.minimum. rewrite Hn, orb_false_r.
  change (is_nan 1000) with false. rewrite orb_false_r.
  destruct (0 <=? s); destruct (1000 <=? _); try (vm_compute; discriminate); congruence.
Qed.

Lemma clip_score_zero (z : float) (s : bool) : Prim2SF z = S754_zero s -> clip_score z = z.
Proof.
  intros H. unfold clip_score, Np.maximum, Np.minimum.
  assert (H0 : (0 <=? z) = true) by (rewrite leb_zero_spec, H; exact I).
  rewrite H0. cbn [orb].
  assert (H1 : (1000 <=? z) = false)
    by (rewrite FloatAxioms.leb_spec, Prim2SF_1000, H; reflexivity).
  rewrite H1. reflexivity.
Qed.

(** Rounding a non-negative mantissa never produces NaN, whatever the sign. *)
Lemma binary_round_aux_not_nan (sx : bool) (m e : Z) (l : location) :
  (0 <= m)%Z -> binary_round_aux prec emax sx m e l <> S754_nan.
Proof.
  intros Hm. unfold binary_round_aux.
  pose proof (shr_fexp_nonneg m e l Hm) as H1.
  destruct (shr_fexp prec emax m e l) as [mrs' e'] eqn:E1. simpl in H1.
  pose proof (round_nearest_even_ge (shr_m mrs') (loc_of_shr_record mrs')) as H2.
  pose proof (shr_fexp_nonneg (round_nearest_even (shr_m mrs') (loc_of_shr_record mrs'))
                e' loc_Exact ltac:(lia)) as H3.
  destruct (shr_fexp prec emax _ e' loc_Exact) as [mrs'' e''] eqn:E2. simpl in H3.
  destruct (shr_m mrs'') as [|q|q]; try lia; try discriminate.
  destruct (e'' <=? _)%Z; discriminate.
Qed.

Lemma binary_normalize_not_nan (z e : Z) (s : bool) :
  binary_normalize prec emax z e s <> S754_nan.
Proof.
  destruct z as [|p|p]; cbn [binary_normalize]; try discriminate;
    unfold binary_round; destruct (shl_align p e _) as [mz ez];
    apply binary_round_aux_not_nan; lia.
Qed.

Lemma float_of_int_not_nan (z : Z) : is_nan (Np.float_of_int z) = false.
Proof.
  apply is_nan_false. unfold Np.float_of_int.
  destruct (0 <=? z)%Z.
  - rewrite of_uint63_spec. apply binary_normalize_not_nan.
  - rewrite opp_spec, of_uint63_spec.
    pose proof (binary_normalize_not_nan (Uint63.to_Z (Uint63.of_Z (- z))) 0 false) as H.
    destruct (binary_normalize prec emax _ 0 false); simpl; congruence.
Qed.

Lemma SFdiv_finite_not_nan (x : spec_float) (sd : bool) (md : positive) (ed : Z) :
  x <> S754_nan -> SF64div x (S754_finite sd md ed) <> S754_nan.
Proof.
  unfold SF64div. intros Hx.
  destruct x as [sx|sx| |sx mx ex]; cbn [SFdiv]; try discriminate; try congruence.
  pose proof (SFdiv_core_nonneg mx md ex ed) as Hq.
  destruct (SFdiv_core_binary prec emax (Zpos mx) ex (Zpos md) ed) as [[mz ez] lz].
  apply binary_round_aux_not_nan. exact Hq.
Qed.

Lemma total_seconds_not_nan (ns : Z) : is_nan (Pd.total_seconds (Some ns)) = false.
Proof.
  unfold Pd.total_seconds. apply is_nan_false. rewrite div_spec.
  change (Prim2SF 1e9) with (S754_finite false 8388608000000000 (-23)).
  apply SFdiv_finite_not_nan. apply is_nan_false, float_of_int_not_nan.
Qed.

(** Sums of non-negative amounts are non-negative. *)
Lemma fold_add_nonneg (l : list float) : forall acc,
  (0 <=? acc) = true ->
  Forall (fun x => (0 <=? x) = true) l ->
  (0 <=? fold_left PrimFloat.add l acc) = true.
Proof.
  induction l as [|x l IH]; intros acc Hacc Hl; simpl; [exact Hacc|].
  inversion Hl; subst. apply IH; [|assumption]. now apply add_nonneg.
Qed.

Lemma sum_nonneg (l : list float) :
  Forall (fun x => (0 <=? x) = true) l -> (0 <=? Pd.sum l) = true.
Proof.
  intros Hl. unfold Pd.sum, Pd.dropna. apply fold_add_nonneg; [reflexivity|].
  rewrite Forall_forall in *. intros x Hx. apply filter_In in Hx. apply Hl, Hx.
Qed.

End Binary64.

(** * Score normalisation *)

Import Binary64.
Local Open Scope float_scope.

(** Away from the degenerate input the clip does bound the scores: for
    finite raw scores whose minimum is below their maximum, and whose spread
    [max - min] has not overflowed, every score of [generate_scores] lies in
    [0, 1000]. *)
Lemma sub_finite_not_nan (a b : float) :
  is_finite a = true -> is_finite b = true -> is_nan (a - b) = false.
Proof.
  rewrite !is_finite_spec, is_nan_false, sub_spec. unfold SF64sub.
  destruct (Prim2SF a) as [sa|sa| |sa ma ea], (Prim2SF b) as [sb|sb| |sb mb eb];
    cbn [finite_sf SFsub]; try tauto; intros _ _; try discriminate.
  - destruct sa, sb; discriminate.
  - apply binary_normalize_not_nan.
Qed.

Lemma mul_1000_not_nan (x : float) : is_nan x = false -> is_nan (1000 * x) = false.
Proof.
  rewrite !is_nan_false, mul_spec, Prim2SF_1000. unfold SF64mul.
  destruct (Prim2SF x) as [sx|sx| |sx mx ex]; cbn [SFmul]; try discriminate; try congruence.
  intros _. apply binary_round_aux_not_nan. lia.
Qed.

Lemma div_pos_finite_not_nan (x d : float) :
  is_nan x = false -> (0 <? d) = true -> is_finite d = true -> is_nan (x / d) = false.
Proof.
  rewrite !is_nan_false, ltb_zero_spec, is_finite_spec, div_spec.
  destruct (Prim2SF d) as [sd|sd| |sd md ed]; cbn [pos_sf finite_sf]; try tauto.
  intros Hx _ _. now apply SFdiv_finite_not_nan.
Qed.

Lemma generate_scores_in_range (raw scores : list float) (lo hi : float) :
  Forall (fun x => is_finite x = true) raw ->
  Np.min raw = Some lo -> Np.max raw = Some hi ->
  (lo <? hi) = true -> is_finite (hi - lo) = true ->
  Main.generate_scores raw = Some scores ->
  Forall (fun s => in_range s = true) scores.
Proof.
  intros Hfin Hmin Hmax Hlt Hd. unfold Main.generate_scores. rewrite Hmin, Hmax.
  intros [= <-]. unfold Np.clip. rewrite Forall_forall in *.
  intros s Hs. apply in_map_iff in Hs as (x & <- & Hx).
  apply in_map_iff in Hx as (r & <- & Hr).
  apply (clip_score_not_nan_in_range (1000 * (r - lo) / (hi - lo))).
  apply div_pos_finite_not_nan; [| |exact Hd].
  - apply mul_1000_not_nan, sub_finite_not_nan; [now apply Hfin|].
    apply Hfin, min_In, Hmin.
  - apply sub_pos; [apply Hfin, max_In, Hmax | apply Hfin, min_In, Hmin | exact Hlt].
Qed.

(** C1 (the code departs from the claim): with two wallets whose raw
    anomaly scores are equal, and with a single wallet, scoring completes and
    every score it emits is NaN, which is not a value of [0, 1000]; the
    rescaling has divided 0 by 0 and [np.clip] lets NaN through. *)
Theorem generate_scores_equal_raw_scores_nan :
  Main.generate_scores [0.5; 0.5] = Some [nan; nan] /\
  Main.generate_scores [0.5] = Some [nan] /\
  in_range nan = false.
Proof. repeat split; vm_compute; reflexivity. Qed.




(** C5 (the code departs from the claim): with two wallets whose raw
    scores are equal, the raw score of the first is at most that of the
    second, yet their credit scores are NaN and do not compare. *)
Theorem generate_scores_equal_raw_scores_unordered :
  Main.generate_scores [0.5; 0.5] = Some [nan; nan] /\
  (nth 0 [0.5; 0.5] 0 <=? nth 1 [0.5; 0.5] 0) = true /\
  (nth 0 [nan; nan] 0 <=? nth 1 [nan; nan] 0) = false.
Proof. repeat split; vm_compute; reflexivity. Qed.

(** C10, as stated, fails: on the raw scores -0.2, 0.02, 0.15, which are
    not all equal, [predict_scores] gives the third wallet
    1000.0000000000001 and [generate_scores] gives it 1000. *)
Lemma clip_is_not_the_identity :
  Model.predict_scores [-0.2; 0.02; 0.15]
    = Some [0; 628.57142857142856; 1000.0000000000001] /\
  Main.generate_scores [-0.2; 0.02; 0.15]
    = Some [0; 628.57142857142856; 1000] /\
  (1000.0000000000001 =? 1000) = false /\
  in_range 1000.0000000000001 = false.
Proof. repeat split; vm_compute; reflexivity. Qed.

(** C10, amended: [generate_scores] is [predict_scores] followed by the
    clip.  The two agree on every score [predict_scores] leaves in
    [0, 1000] and on NaN; where rounding takes a score of [predict_scores]
    above 1000, [generate_scores] returns 1000. *)
Theorem generate_scores_clips_predict_scores
    (raw normalized : list float) (i : nat) (s : float) :
  Model.predict_scores raw = Some normalized ->
  nth_error normalized i = Some s ->
  exists scores,
    Main.generate_scores raw = Some scores /\
    nth_error scores i = Some (clip_score s) /\
    (in_range s = true -> (clip_score s =? s) = true) /\
    (is_nan s = true -> clip_score s = s) /\
    ((1000 <? s) = true -> clip_score s = 1000).
Proof.
  unfold Model.predict_scores, Main.generate_scores.
  destruct (Np.min raw) as [lo|]; [|discriminate].
  destruct (Np.max raw) as [hi|]; [|discriminate].
  intros [= <-] Hi.
  eexists. split; [reflexivity|]. split.
  - unfold Np.clip. rewrite nth_error_map, Hi. reflexivity.
  - auto using clip_score_in_range, clip_score_nan, clip_score_above.
Qed.

Lemma generate_scores_clips_predict_scores_witness :
  exists scores,
    Main.generate_scores [-0.2; 0.02; 0.15] = Some scores /\
    nth_error scores 2 = Some (clip_score 1000.0000000000001) /\
    (in_range 1000.0000000000001 = true ->
       (clip_score 1000.0000000000001 =? 1000.0000000000001) = true) /\
    (is_nan 1000.0000000000001 = true ->
       clip_score 1000.0000000000001 = 1000.0000000000001) /\
    ((1000 <? 1000.0000000000001) = true -> clip_score 1000.0000000000001 = 1000).
Proof.
  apply (generate_scores_clips_predict_scores
           [-0.2; 0.02; 0.15] [0; 628.57142857142856; 1000.0000000000001] 2).
  - vm_compute. reflexivity.
  - reflexivity.
Defined.

(** * Per-wallet features ([src/features.py]) *)

Lemma ltb_zero_neq (x : float) : (0 <? x) = true -> (x =? 0) = false.
Proof.
  rewrite ltb_zero_spec, FloatAxioms.eqb_spec, Prim2SF_zero. unfold SFeqb.
  destruct (Prim2SF x) as [s|[]| |[] m e]; simpl; tauto.
Qed.

Lemma amounts_of_nonneg (txs : list Features.Transaction) (name : string) :
  (forall t, In t txs -> (0 <=? Features.amount_usd t) = true) ->
  Forall (fun x => (0 <=? x) = true) (Features.amounts_of txs name).
Proof.
  intros H. unfold Features.amounts_of. rewrite Forall_forall. intros x Hx.
  apply in_map_iff in Hx as (t & <- & Ht). apply filter_In in Ht. apply H, Ht.
Qed.

(** C7: when no transaction of the wallet has a negative [amount_usd], the
    denominator [total_deposit_value + 1e-6] of [borrow_to_deposit_ratio] is
    strictly positive, hence not zero; the ratio is the quotient by it, and a
    non-negative number whenever the denominator has not overflowed. *)
Theorem borrow_to_deposit_denominator_positive (txs : list Features.Transaction) :
  (forall t, In t txs -> (0 <=? Features.amount_usd t) = true) ->
  (0 <? Features.total_deposit_value (Features.calculate_wallet_features txs) + 1e-6) = true /\
  (Features.total_deposit_value (Features.calculate_wallet_features txs) + 1e-6 =? 0) = false /\
  Features.borrow_to_deposit_ratio (Features.calculate_wallet_features txs)
    = Features.total_borrow_value (Features.calculate_wallet_features txs)
      / (Features.total_deposit_value (Features.calculate_wallet_features txs) + 1e-6) /\
  (is_finite (Features.total_deposit_value (Features.calculate_wallet_features txs) + 1e-6) = true ->
   (0 <=? Features.borrow_to_deposit_ratio (Features.calculate_wallet_features txs)) = true).
Proof.
  intros H. cbn [Features.calculate_wallet_features Features.total_deposit_value
                 Features.total_borrow_value Features.borrow_to_deposit_ratio].
  assert (Hd : (0 <=? Pd.sum (Features.amounts_of txs "deposit")) = true)
    by (apply sum_nonneg, amounts_of_nonneg, H).
  assert (Hb : (0 <=? Pd.sum (Features.amounts_of txs "borrow")) = true)
    by (apply sum_nonneg, amounts_of_nonneg, H).
  assert (Hp : (0 <? Pd.sum (Features.amounts_of txs "deposit") + 1e-6) = true)
    by (apply add_pos_r; [exact Hd | reflexivity]).
  repeat split.
  - exact Hp.
  - apply ltb_zero_neq, Hp.
  - intros Hf. apply div_nonneg_finite; assumption.
Qed.

(** A wallet with four transactions, and one with a single transaction. *)
Definition example_wallet : list Features.Transaction :=
  [ {| Features.user := "0xA"; Features.type := "deposit";
       Features.block_timestamp := 3000000000; Features.amount_usd := 100 |};
    {| Features.user := "0xA"; Features.type := "Borrow";
       Features.block_timestamp := 1000000000; Features.amount_usd := 40 |};
    {| Features.user := "0xA"; Features.type := "liquidationcall";
       Features.block_timestamp := 7000000000; Features.amount_usd := 1 |};
    {| Features.user := "0xA"; Features.type := "repay_borrow";
       Features.block_timestamp := 7500000000; Features.amount_usd := 1 |} ]%string.

Definition single_transaction_wallet : list Features.Transaction :=
  [ {| Features.user := "0xB"; Features.type := "deposit";
       Features.block_timestamp := 3000000000; Features.amount_usd := 100 |} ]%string.

Lemma borrow_to_deposit_denominator_positive_witness :
  (0 <? Features.total_deposit_value (Features.calculate_wallet_features example_wallet) + 1e-6) = true /\
  (Features.total_deposit_value (Features.calculate_wallet_features example_wallet) + 1e-6 =? 0) = false /\
  Features.borrow_to_deposit_ratio (Features.calculate_wallet_features example_wallet)
    = Features.total_borrow_value (Features.calculate_wallet_features example_wallet)
      / (Features.total_deposit_value (Features.calculate_wallet_features example_wallet) + 1e-6) /\
  (is_finite (Features.total_deposit_value (Features.calculate_wallet_features example_wallet) + 1e-6) = true ->
   (0 <=? Features.borrow_to_deposit_ratio (Features.calculate_wallet_features example_wallet)) = true).
Proof.
  apply (borrow_to_deposit_denominator_positive example_wallet).
  intros t Ht. simpl in Ht.
  repeat (destruct Ht as [<-|Ht]; [reflexivity|]). contradiction.
Defined.

(** Sorting: [sort_values] returns the same timestamps in ascending order. *)
Lemma insert_sorted_perm (t : Z) (s : list Z) :
  Permutation (Pd.insert_sorted t s) (t :: s).
Proof.
  induction s as [|u s IH]; simpl; [apply Permutation_refl|].
  destruct (t <=? u)%Z; [apply Permutation_refl|].
  rewrite IH. apply perm_swap.
Qed.

Lemma sort_values_perm (s : list Z) : Permutation (Pd.sort_values s) s.
Proof.
  induction s as [|t s IH]; simpl; [constructor|].
  rewrite insert_sorted_perm. now constructor.
Qed.

Lemma insert_sorted_sorted (t : Z) (s : list Z) :
  Sorted Z.le s -> Sorted Z.le (Pd.insert_sorted t s).
Proof.
  induction s as [|u s IH]; simpl; intros Hs.
  - repeat constructor.
  - destruct (t <=? u)%Z eqn:E.
    + constructor; [assumption|]. constructor. lia.
    + inversion Hs as [|? ? Hs' Hhd]; subst. constructor; [auto|].
      destruct s as [|v s]; simpl.
      * constructor. lia.
      * destruct (t <=? v)%Z; constructor; try lia.
        inversion Hhd; subst. assumption.
Qed.

Lemma sort_values_sorted (s : list Z) : Sorted Z.le (Pd.sort_values s).
Proof.
  induction s as [|t s IH]; simpl; [constructor|]. now apply insert_sorted_sorted.
Qed.

(** [diff], [total_seconds] and [dropna] together leave the gaps between
    consecutive entries. *)
Lemma dropna_diff_from (rest : list Z) : forall t,
  Pd.dropna (map Pd.total_seconds (Pd.diff_from t rest)) = gaps_in_seconds (t :: rest).
Proof.
  induction rest as [|u rest IH]; intros t; [reflexivity|].
  cbn [Pd.diff_from map Pd.dropna filter].
  rewrite total_seconds_not_nan. cbn [negb].
  change (filter (fun x => negb (is_nan x)) (map Pd.total_seconds (Pd.diff_from u rest)))
    with (Pd.dropna (map Pd.total_seconds (Pd.diff_from u rest))).
  rewrite IH. reflexivity.
Qed.

Lemma dropna_diff (s : list Z) :
  Pd.dropna (map Pd.total_seconds (Pd.diff s)) = gaps_in_seconds s.
Proof.
  destruct s as [|t rest]; [reflexivity|].
  cbn [Pd.diff map Pd.dropna filter Pd.total_seconds].
  change (is_nan nan) with true. cbn [negb]. apply dropna_diff_from.
Qed.

Lemma dropna_idempotent (s : list float) : Pd.dropna (Pd.dropna s) = Pd.dropna s.
Proof.
  unfold Pd.dropna. induction s as [|x s IH]; [reflexivity|]. simpl.
  destruct (is_nan x) eqn:E; simpl; [exact IH|]. rewrite E. simpl. now rewrite IH.
Qed.


Lemma sort_values_length (s : list Z) : List.length (Pd.sort_values s) = List.length s.
Proof. apply Permutation_length, sort_values_perm. Qed.



(** On the four-transaction wallet the gaps are 2, 4 and 0.5 seconds. *)
Example time_between_txs_mean_example :
  gaps_in_seconds (Pd.sort_values (map Features.block_timestamp example_wallet))
    = [2; 4; 0.5] /\
  Features.time_between_txs_mean (Features.calculate_wallet_features example_wallet)
    = 2.1666666666666665.
Proof. split; vm_compute; reflexivity. Qed.

(** * Action counts *)

Lemma sum_bool_from (s : list (option bool)) : forall acc : Z,
  fold_left (fun acc b => match b with Some true => acc + 1 | _ => acc end)%Z s acc
  = (acc + Z.of_nat (List.length
       (filter (fun b => match b with Some true => true | _ => false end) s)))%Z.
Proof.
  induction s as [|b s IH]; intros acc; simpl; [lia|].
  rewrite IH. destruct b as [[]|]; simpl; lia.
Qed.

Lemma sum_bool_count (s : list (option bool)) :
  sum_bool s = Z.of_nat (List.length
    (filter (fun b => match b with Some true => true | _ => false end) s)).
Proof. unfold sum_bool. now rewrite sum_bool_from. Qed.

Lemma filter_map_length {A B : Type} (f : A -> B) (p : B -> bool) (l : list A) :
  List.length (filter p (map f l)) = List.length (filter (fun a => p (f a)) l).
Proof.
  induction l as [|a l IH]; simpl; [reflexivity|].
  destruct (p (f a)); simpl; now rewrite IH.
Qed.






(** * Loading ([load_data]) *)

(** The lines of a text, put together again, are the text. *)
Lemma lines_from_concat (s : string) : forall cur,
  String.concat "" (Py.lines_from cur s) = (cur ++ s)%string.
Proof.
  assert (app_nil : forall u : string, (u ++ "")%string = u)
    by (induction u as [|c u IH]; simpl; congruence).
  assert (app_assoc : forall u v w : string, ((u ++ v) ++ w)%string = (u ++ (v ++ w))%string)
    by (induction u as [|c u IH]; intros; simpl; congruence).
  assert (concat_cons : forall (l : string) ls,
             String.concat "" (l :: ls) = (l ++ String.concat "" ls)%string).
  { intros l [|l' ls]; simpl; [now rewrite app_nil | reflexivity]. }
  induction s as [|c s IH]; intros cur.
  - simpl. destruct cur; simpl; [reflexivity | now rewrite app_nil].
  - cbn [Py.lines_from]. destruct (Ascii.eqb c "010").
    + rewrite concat_cons, IH, app_assoc. reflexivity.
    + rewrite IH, app_assoc. reflexivity.
Qed.

Lemma lines_concat (s : string) : String.concat "" (Py.lines s) = s.
Proof. unfold Py.lines. now rewrite lines_from_concat. Qed.



(** A text of three lines whose middle line is not JSON. *)
Definition example_text : string :=
  String "{" (String "}" (String "010"
    (String "o" (String "o" (String "p" (String "s" (String "010"
      (String "[" (String "]" (String "010" EmptyString)))))))))).


Example load_data_example :
  @Main.load_data example_externals
     (one_file "transactions.json" example_text) "transactions.json"
    = Ok (JArr [JObj []; JArr []]) /\
  @Main.load_data example_externals
     (one_file "transactions.json" example_text) "missing.json"
    = Raise FileNotFoundError.
Proof. split; vm_compute; reflexivity. Qed.

(** * The features frame ([generate_features]) *)

Lemma union_keys_incl (ds : list (dict Main.fval)) : forall seen k,
  In k seen -> In k (Main.union_keys seen ds).
Proof.
  induction ds as [|d ds IH]; intros seen k Hk; simpl; [exact Hk|].
  apply IH. apply in_or_app. now left.
Qed.




Lemma DataFrame_of_dicts_rectangular (ds : list (dict Main.fval)) (row : list Main.fval) :
  In row (Main.f_rows (Main.DataFrame_of_dicts ds)) ->
  List.length row = List.length (Main.f_columns (Main.DataFrame_of_dicts ds)).
Proof.
  unfold Main.DataFrame_of_dicts. cbn [Main.f_rows Main.f_columns].
  intros Hrow. apply in_map_iff in Hrow as (d & <- & _). apply length_map.
Qed.


Definition features_with_amount : Main.FeaturesFrame := {|
  Main.f_columns :=
    ["wallet"; "total_txs"; "total_usd_volume"; "avg_usd_amount";
     "max_usd_amount"; "deposit_count"; "borrow_count"; "repay_count";
     "redeem_count"; "liquidation_count"; "borrow_ratio"]%string;
  Main.f_rows :=
    [[Main.VKey (JStr "0xA"); Main.VInt 1; Main.VFloat 10; Main.VFloat 10;
      Main.VFloat 10; Main.VInt 1; Main.VInt 0; Main.VInt 0; Main.VInt 0;
      Main.VInt 0; Main.VFloat 0]]
|}.


(** * Further properties of the code *)

(** The order of the specification is transitive. *)
Definition cmp_le (c : option comparison) : bool :=
  match c with Some Lt | Some Eq => true | _ => false end.

Lemma SFcompare_le_trans (x y z : spec_float) :
  cmp_le (SFcompare x y) = true -> cmp_le (SFcompare y z) = true ->
  cmp_le (SFcompare x z) = true.
Proof.
  destruct x as [sx|sx| |sx mx ex], y as [sy|sy| |sy my ey], z as [sz|sz| |sz mz ez];
    try (simpl; intros; discriminate);
    try (destruct sx; simpl; intros; try discriminate; reflexivity);
    try (destruct sx, sy; simpl; intros; try discriminate; reflexivity);
    try (destruct sx, sz; simpl; intros; try discriminate; reflexivity);
    try (destruct sy, sz; simpl; intros; try discriminate; reflexivity);
    try (destruct sx, sy, sz; simpl; intros; try discriminate; reflexivity).
  all: destruct sx, sy, sz; simpl; try (intros; discriminate); try (intros; reflexivity).
  all: change (Pos.compare_cont Eq mx my) with (mx ?= my)%positive;
       change (Pos.compare_cont Eq my mz) with (my ?= mz)%positive;
       change (Pos.compare_cont Eq mx mz) with (mx ?= mz)%positive.
  all: destruct (Z.compare_spec ex ey), (Z.compare_spec ey ez), (Z.compare_spec ex ez);
       subst; simpl; try lia; try (intros; discriminate); try (intros; reflexivity).
  all: destruct (Pos.compare_spec mx my), (Pos.compare_spec my mz), (Pos.compare_spec mx mz);
       subst; simpl; try lia; try (intros; discriminate); try (intros; reflexivity).
Qed.

Lemma leb_cmp (a b : float) : (a <=? b) = cmp_le (SFcompare (Prim2SF a) (Prim2SF b)).
Proof. rewrite FloatAxioms.leb_spec. reflexivity. Qed.

Lemma leb_trans (a b c : float) :
  (a <=? b) = true -> (b <=? c) = true -> (a <=? c) = true.
Proof. rewrite !leb_cmp. apply SFcompare_le_trans. Qed.

Lemma leb_refl (a : float) : is_nan a = false -> (a <=? a) = true.
Proof.
  rewrite is_nan_false, leb_cmp. intros H. now rewrite SFcompare_refl.
Qed.

Lemma is_finite_not_nan (a : float) : is_finite a = true -> is_nan a = false.
Proof.
  unfold is_finite. rewrite negb_true_iff, orb_false_iff. tauto.
Qed.

(** [min()] returns a least element and [max()] a greatest one of an array
    without NaN. *)
Lemma fold_minimum_least (l : list float) : forall acc,
  is_nan acc = false -> Forall (fun x => is_nan x = false) l ->
  (fold_left Np.minimum l acc <=? acc) = true /\
  forall x, In x l -> (fold_left Np.minimum l acc <=? x) = true.
Proof.
  induction l as [|y l IH]; intros acc Ha Hl; simpl.
  - split; [now apply leb_refl | intros x []].
  - inversion Hl as [|? ? Hy Hl']; subst.
    assert (Hm : is_nan (Np.minimum acc y) = false)
      by (unfold Np.minimum; destruct ((acc <=? y) || is_nan acc); assumption).
    destruct (IH (Np.minimum acc y) Hm Hl') as [H1 H2].
    assert (Hacc : (Np.minimum acc y <=? acc) = true /\ (Np.minimum acc y <=? y) = true).
    { unfold Np.minimum. rewrite Ha, orb_false_r.
      destruct (acc <=? y) eqn:E.
      - split; [now apply leb_refl | exact E].
      - split; [now apply leb_total | now apply leb_refl]. }
    destruct Hacc as [Hacc Hy'].
    split; [eapply leb_trans; eauto|].
    intros x [<-|Hx]; [eapply leb_trans; eauto | auto].
Qed.

Lemma fold_maximum_greatest (l : list float) : forall acc,
  is_nan acc = false -> Forall (fun x => is_nan x = false) l ->
  (acc <=? fold_left Np.maximum l acc) = true /\
  forall x, In x l -> (x <=? fold_left Np.maximum l acc) = true.
Proof.
  induction l as [|y l IH]; intros acc Ha Hl; simpl.
  - split; [now apply leb_refl | intros x []].
  - inversion Hl as [|? ? Hy Hl']; subst.
    assert (Hm : is_nan (Np.maximum acc y) = false)
      by (unfold Np.maximum; destruct ((y <=? acc) || is_nan acc); assumption).
    destruct (IH (Np.maximum acc y) Hm Hl') as [H1 H2].
    assert (Hacc : (acc <=? Np.maximum acc y) = true /\ (y <=? Np.maximum acc y) = true).
    { unfold Np.maximum. rewrite Ha, orb_false_r.
      destruct (y <=? acc) eqn:E.
      - split; [now apply leb_refl | exact E].
      - split; [now apply leb_total | now apply leb_refl]. }
    destruct Hacc as [Hacc Hy'].
    split; [eapply leb_trans; eauto|].
    intros x [<-|Hx]; [eapply leb_trans; eauto | auto].
Qed.

Lemma min_least (a : list float) (lo : float) :
  Forall (fun x => is_nan x = false) a -> Np.min a = Some lo ->
  forall x, In x a -> (lo <=? x) = true.
Proof.
  destruct a as [|x0 l]; simpl; [discriminate|]. intros Ha [= <-].
  inversion Ha as [|? ? Hx0 Hl]; subst.
  destruct (fold_minimum_least l x0) as [H1 H2]; auto.
  intros x [<-|Hx]; auto.
Qed.

Lemma max_greatest (a : list float) (hi : float) :
  Forall (fun x => is_nan x = false) a -> Np.max a = Some hi ->
  forall x, In x a -> (x <=? hi) = true.
Proof.
  destruct a as [|x0 l]; simpl; [discriminate|]. intros Ha [= <-].
  inversion Ha as [|? ? Hx0 Hl]; subst.
  destruct (fold_maximum_greatest l x0) as [H1 H2]; auto.
  intros x [<-|Hx]; auto.
Qed.

(** A difference [a - b] with [b <= a] is not negative. *)
Lemma sub_nonneg (a b : float) :
  is_finite a = true -> is_finite b = true -> (b <=? a) = true -> (0 <=? a - b) = true.
Proof.
  intros Fa Fb Hle.
  destruct (b <? a) eqn:Elt.
  - apply ltb_leb, sub_pos; assumption.
  - assert (He : (a =? b) = true).
    { apply leb_antisym; [|exact Hle].
      revert Hle Elt. rewrite FloatAxioms.leb_spec, FloatAxioms.ltb_spec, leb_cmp.
      unfold SFleb, SFltb. rewrite (SFcompare_antisym (Prim2SF b) (Prim2SF a)).
      destruct (SFcompare (Prim2SF b) (Prim2SF a)) as [[]|]; simpl; congruence. }
    destruct (sub_eqb_zero a b Fa Fb He) as [s Hz].
    apply leb_zero_spec. rewrite Hz. exact I.
Qed.

Lemma mul_1000_nonneg' (x : float) : (0 <=? x) = true -> (0 <=? 1000 * x) = true.
Proof.
  rewrite !leb_zero_spec, mul_spec, Prim2SF_1000. unfold SF64mul.
  destruct (Prim2SF x) as [sx|[]| |[] m e]; cbn [nonneg_sf SFmul xorb]; try tauto; intros _.
  apply binary_round_aux_nonneg. lia.
Qed.

(** ** More on the scores *)

Lemma finite_all_not_nan (raw : list float) :
  Forall (fun x => is_finite x = true) raw -> Forall (fun x => is_nan x = false) raw.
Proof. apply Forall_impl. intros a. apply is_finite_not_nan. Qed.

(** X2: for finite raw scores whose minimum is below their maximum and
    whose spread has not overflowed, no score of [predict_scores] is negative
    (the raw minimum is a least element, so every difference [r - min] is
    non-negative). *)
Theorem predict_scores_nonnegative (raw normalized : list float) (lo hi : float) :
  Forall (fun x => is_finite x = true) raw ->
  Np.min raw = Some lo -> Np.max raw = Some hi ->
  (lo <? hi) = true -> is_finite (hi - lo) = true ->
  Model.predict_scores raw = Some normalized ->
  Forall (fun s => (0 <=? s) = true) normalized.
Proof.
  intros Hfin Hmin Hmax Hlt Hd. unfold Model.predict_scores. rewrite Hmin, Hmax.
  intros [= <-]. pose proof (finite_all_not_nan raw Hfin) as Hnn.
  rewrite Forall_forall in *. intros s Hs.
  apply in_map_iff in Hs as (r & <- & Hr).
  apply div_nonneg_finite; [| |exact Hd].
  - apply mul_1000_nonneg', sub_nonneg; [now apply Hfin | apply Hfin, min_In, Hmin |].
    apply (min_least raw lo); [apply Forall_forall; exact Hnn | exact Hmin | exact Hr].
  - apply sub_pos; [apply Hfin, max_In, Hmax | apply Hfin, min_In, Hmin | exact Hlt].
Qed.

Lemma fold_minimum_repeat (x : float) (n : nat) : fold_left Np.minimum (repeat x n) x = x.
Proof.
  induction n as [|n IH]; simpl; [reflexivity|].
  replace (Np.minimum x x) with x; [exact IH|].
  unfold Np.minimum. now destruct ((x <=? x) || is_nan x).
Qed.

Lemma fold_maximum_repeat (x : float) (n : nat) : fold_left Np.maximum (repeat x n) x = x.
Proof.
  induction n as [|n IH]; simpl; [reflexivity|].
  replace (Np.maximum x x) with x; [exact IH|].
  unfold Np.maximum. now destruct ((x <=? x) || is_nan x).
Qed.

Lemma zero_over_zero (x : float) : is_finite x = true -> 1000 * (x - x) / (x - x) = nan.
Proof.
  intros Fx. apply Prim2SF_inj.
  assert (He : (x =? x) = true) by (apply eqb_refl_not_nan, is_finite_not_nan, Fx).
  destruct (sub_eqb_zero x x Fx Fx He) as [s Hz].
  rewrite div_spec, (mul_1000_zero _ _ Hz), Hz. reflexivity.
Qed.

(** X3: whenever all wallets have the same finite raw score, and so
    whenever there is a single wallet, every score of [generate_scores] and of
    [predict_scores] is NaN. *)
Theorem equal_raw_scores_all_nan (x : float) (n : nat) :
  is_finite x = true ->
  Main.generate_scores (repeat x (S n)) = Some (repeat nan (S n)) /\
  Model.predict_scores (repeat x (S n)) = Some (repeat nan (S n)).
Proof.
  intros Fx. unfold Main.generate_scores, Model.predict_scores, Np.min, Np.max.
  cbn [repeat]. rewrite fold_minimum_repeat, fold_maximum_repeat.
  change (x :: repeat x n) with (repeat x (S n)).
  assert (E : map (fun r => 1000 * (r - x) / (x - x)) (repeat x (S n)) = repeat nan (S n)).
  { rewrite map_repeat. now rewrite zero_over_zero. }
  rewrite E. split; [|reflexivity].
  unfold Np.clip. rewrite map_repeat. reflexivity.
Qed.

(** X4: scoring fails (the [ValueError] of [min()]) exactly on an empty
    array of raw scores; otherwise it returns one score per raw score, in
    both modules. *)
Theorem one_score_per_wallet (raw : list float) :
  (Main.generate_scores raw = None <-> raw = []) /\
  (Model.predict_scores raw = None <-> raw = []) /\
  (forall scores, Main.generate_scores raw = Some scores ->
     List.length scores = List.length raw) /\
  (forall scores, Model.predict_scores raw = Some scores ->
     List.length scores = List.length raw).
Proof.
  unfold Main.generate_scores, Model.predict_scores, Np.clip.
  destruct raw as [|x l]; simpl.
  - repeat split; congruence.
  - repeat split; try congruence; intros scores [= <-]; simpl; now rewrite ?length_map.
Qed.

Lemma generate_scores_in_range_witness :
  Forall (fun s => in_range s = true) [0; 628.57142857142856; 1000].
Proof.
  apply (generate_scores_in_range [-0.2; 0.02; 0.15] [0; 628.57142857142856; 1000]
                                  (-0.2) 0.15).
  - repeat constructor.
  - reflexivity.
  - reflexivity.
  - reflexivity.
  - reflexivity.
  - vm_compute. reflexivity.
Defined.

Lemma predict_scores_nonnegative_witness :
  Forall (fun s => (0 <=? s) = true) [0; 628.57142857142856; 1000.0000000000001].
Proof.
  apply (predict_scores_nonnegative [-0.2; 0.02; 0.15]
           [0; 628.57142857142856; 1000.0000000000001] (-0.2) 0.15).
  - repeat constructor.
  - reflexivity.
  - reflexivity.
  - reflexivity.
  - reflexivity.
  - vm_compute. reflexivity.
Defined.

Lemma equal_raw_scores_all_nan_witness :
  Main.generate_scores (repeat 0.5 2) = Some (repeat nan 2) /\
  Model.predict_scores (repeat 0.5 2) = Some (repeat nan 2).
Proof. apply (equal_raw_scores_all_nan 0.5 1). reflexivity. Defined.

(** ** More on the per-wallet features of [src/features.py] *)

Local Open Scope Z_scope.

(** An ascending arrangement of given timestamps is unique. *)
Lemma sorted_perm_unique (a : list Z) : forall b,
  Sorted Z.le a -> Sorted Z.le b -> Permutation a b -> a = b.
Proof.
  induction a as [|x a IH]; intros b Ha Hb Hp.
  - apply Permutation_nil in Hp. now subst.
  - destruct b as [|y b]; [apply Permutation_sym, Permutation_nil in Hp; discriminate|].
    assert (Tr : Relations_1.Transitive Z.le) by (intros u v w; lia).
    pose proof (Sorted_StronglySorted Tr Ha) as Sa.
    pose proof (Sorted_StronglySorted Tr Hb) as Sb.
    inversion Sa as [|? ? Sa' Fa]; subst. inversion Sb as [|? ? Sb' Fb]; subst.
    rewrite Forall_forall in Fa, Fb.
    assert (Exy : x = y).
    { assert (Hy : In y (x :: a)) by (eapply Permutation_in; [apply Permutation_sym; eauto | now left]).
      assert (Hx : In x (y :: b)) by (eapply Permutation_in; [eauto | now left]).
      destruct Hy as [Hy|Hy]; [congruence|]. destruct Hx as [Hx|Hx]; [congruence|].
      specialize (Fa _ Hy). specialize (Fb _ Hx). lia. }
    subst y. f_equal. apply IH.
    + now inversion Ha.
    + now inversion Hb.
    + eapply Permutation_cons_inv; eauto.
Qed.

Lemma sort_values_perm_eq (s s' : list Z) :
  Permutation s s' -> Pd.sort_values s = Pd.sort_values s'.
Proof.
  intros Hp. apply sorted_perm_unique; try apply sort_values_sorted.
  rewrite (sort_values_perm s), (sort_values_perm s'). exact Hp.
Qed.






Lemma gaps_in_seconds_length (a : list Z) :
  List.length (gaps_in_seconds a) = (List.length a - 1)%nat.
Proof.
  induction a as [|t [|u a] IH]; try reflexivity.
  change (gaps_in_seconds (t :: u :: a))
    with ((Np.float_of_int (u - t) / 1e9)%float :: gaps_in_seconds (u :: a)).
  cbn [List.length] in *. rewrite IH. lia.
Qed.

(** X6: for a wallet with exactly two transactions [time_between_txs_std]
    is NaN: there is one gap, and the sample standard deviation of one value
    is undefined. *)
Theorem two_transactions_std_nan (txs : list Features.Transaction) :
  List.length txs = 2%nat ->
  Features.time_between_txs_std (Features.calculate_wallet_features txs) = nan.
Proof.
  intros Hlen.
  cbn [Features.calculate_wallet_features Features.time_between_txs_std].
  rewrite sort_values_length, length_map, Hlen. cbn [Nat.ltb Nat.leb].
  unfold Pd.std. rewrite dropna_idempotent, dropna_diff, gaps_in_seconds_length.
  rewrite sort_values_length, length_map, Hlen. reflexivity.
Qed.

Lemma two_transactions_std_nan_witness :
  Features.time_between_txs_std
    (Features.calculate_wallet_features (firstn 2 example_wallet)) = nan.
Proof. apply (two_transactions_std_nan (firstn 2 example_wallet)). reflexivity. Defined.

Lemma filter_length_perm {A : Type} (p : A -> bool) (l l' : list A) :
  Permutation l l' -> List.length (filter p l) = List.length (filter p l').
Proof.
  induction 1 as [|x l l' _ IH|x y l|l l' l'' _ IH1 _ IH2]; simpl.
  - reflexivity.
  - destruct (p x); simpl; now rewrite IH.
  - destruct (p x), (p y); reflexivity.
  - now rewrite IH1.
Qed.

Lemma features_action_count_filter (txs : list Features.Transaction) (action : string) :
  Features.action_count txs action
  = Z.of_nat (List.length
      (filter (fun t => Py.contains (Py.lower (Features.type t)) action) txs)).
Proof.
  unfold Features.action_count. rewrite sum_bool_count, filter_map_length.
  do 2 f_equal. apply filter_ext. intros t. destruct (Py.contains _ _); reflexivity.
Qed.

(** X7: the transaction count, the action counts and the temporal features
    of a wallet do not depend on the order in which its transactions are
    listed.  (The two USD totals are float sums taken in listing order and
    are not part of the statement.) *)
Theorem features_order_independent (txs txs' : list Features.Transaction) :
  Permutation txs txs' ->
  Features.total_txs (Features.calculate_wallet_features txs)
    = Features.total_txs (Features.calculate_wallet_features txs') /\
  Features.action_counts (Features.calculate_wallet_features txs)
    = Features.action_counts (Features.calculate_wallet_features txs') /\
  Features.first_activity (Features.calculate_wallet_features txs)
    = Features.first_activity (Features.calculate_wallet_features txs') /\
  Features.last_activity (Features.calculate_wallet_features txs)
    = Features.last_activity (Features.calculate_wallet_features txs') /\
  Features.time_between_txs_mean (Features.calculate_wallet_features txs)
    = Features.time_between_txs_mean (Features.calculate_wallet_features txs') /\
  Features.time_between_txs_std (Features.calculate_wallet_features txs)
    = Features.time_between_txs_std (Features.calculate_wallet_features txs').
Proof.
  intros Hp.
  cbn [Features.calculate_wallet_features Features.total_txs Features.action_counts
       Features.first_activity Features.last_activity
       Features.time_between_txs_mean Features.time_between_txs_std].
  rewrite (sort_values_perm_eq (map Features.block_timestamp txs)
                               (map Features.block_timestamp txs'))
    by (now apply Permutation_map).
  rewrite (Permutation_length Hp).
  repeat split.
  apply map_ext. intros action. f_equal.
  rewrite !features_action_count_filter. f_equal. now apply filter_length_perm.
Qed.

Lemma features_order_independent_witness :
  Features.total_txs (Features.calculate_wallet_features example_wallet)
    = Features.total_txs (Features.calculate_wallet_features (rev example_wallet)) /\
  Features.action_counts (Features.calculate_wallet_features example_wallet)
    = Features.action_counts (Features.calculate_wallet_features (rev example_wallet)) /\
  Features.first_activity (Features.calculate_wallet_features example_wallet)
    = Features.first_activity (Features.calculate_wallet_features (rev example_wallet)) /\
  Features.last_activity (Features.calculate_wallet_features example_wallet)
    = Features.last_activity (Features.calculate_wallet_features (rev example_wallet)) /\
  Features.time_between_txs_mean (Features.calculate_wallet_features example_wallet)
    = Features.time_between_txs_mean (Features.calculate_wallet_features (rev example_wallet)) /\
  Features.time_between_txs_std (Features.calculate_wallet_features example_wallet)
    = Features.time_between_txs_std (Features.calculate_wallet_features (rev example_wallet)).
Proof.
  apply (features_order_independent example_wallet (rev example_wallet)).
  apply Permutation_rev.
Defined.

Local Open Scope float_scope.

(** X8: for a wallet none of whose transactions has the type "deposit"
    (in any letter case), [total_deposit_value] is 0 and
    [borrow_to_deposit_ratio] is the borrowed value divided by [1e-6]. *)
Theorem no_deposit_ratio (txs : list Features.Transaction) :
  (forall t, In t txs -> String.eqb (Py.lower (Features.type t)) "deposit" = false) ->
  Features.total_deposit_value (Features.calculate_wallet_features txs) = 0 /\
  Features.borrow_to_deposit_ratio (Features.calculate_wallet_features txs)
    = Features.total_borrow_value (Features.calculate_wallet_features txs) / 1e-6.
Proof.
  intros H.
  cbn [Features.calculate_wallet_features Features.total_deposit_value
       Features.total_borrow_value Features.borrow_to_deposit_ratio].
  assert (E : Features.amounts_of txs "deposit" = []).
  { unfold Features.amounts_of.
    replace (filter (fun t => String.eqb (Py.lower (Features.type t)) "deposit") txs)
      with (@nil Features.Transaction); [reflexivity|].
    symmetry. induction txs as [|t txs IH]; [reflexivity|]. simpl.
    rewrite (H t (or_introl eq_refl)). apply IH. intros u Hu. apply H. now right. }
  rewrite E. split; reflexivity.
Qed.

Definition borrower_wallet : list Features.Transaction :=
  [ {| Features.user := "0xC"; Features.type := "borrow";
       Features.block_timestamp := 1000000000; Features.amount_usd := 40 |};
    {| Features.user := "0xC"; Features.type := "depositETH";
       Features.block_timestamp := 2000000000; Features.amount_usd := 500 |} ]%string.

Lemma no_deposit_ratio_witness :
  Features.total_deposit_value (Features.calculate_wallet_features borrower_wallet) = 0 /\
  Features.borrow_to_deposit_ratio (Features.calculate_wallet_features borrower_wallet)
    = Features.total_borrow_value (Features.calculate_wallet_features borrower_wallet) / 1e-6.
Proof.
  apply (no_deposit_ratio borrower_wallet).
  intros t Ht. simpl in Ht. repeat (destruct Ht as [<-|Ht]; [reflexivity|]). contradiction.
Defined.

Lemma prefix_refl (s : string) : prefix s s = true.
Proof.
  induction s as [|c s IH]; [reflexivity|]. simpl.
  destruct (ascii_dec c c); [exact IH | congruence].
Qed.

Lemma contains_self (s : string) : Py.contains s s = true.
Proof.
  destruct s as [|c s]; [reflexivity|].
  cbn [Py.contains]. now rewrite prefix_refl.
Qed.

Lemma filter_length_le_impl {A : Type} (p q : A -> bool) (l : list A) :
  (forall a, p a = true -> q a = true) ->
  (List.length (filter p l) <= List.length (filter q l))%nat.
Proof.
  intros Hpq. induction l as [|a l IH]; [apply le_n|]. simpl.
  destruct (p a) eqn:Ep.
  - rewrite (Hpq a Ep). simpl. lia.
  - destruct (q a); simpl; lia.
Qed.

(** X9: every '{action}_count' is found in the feature record under its
    name and lies between 0 and [total_txs]; the transactions whose amounts
    enter [total_deposit_value] and [total_borrow_value] (type equal to the
    name) are among those the matching count counts (type containing the
    name), so there are at most as many. *)
Theorem action_counts_bounds (txs : list Features.Transaction) (action : string) :
  In action ACTIONS ->
  dict_get (Features.action_counts (Features.calculate_wallet_features txs))
           (action ++ "_count")
    = Some (Features.action_count txs action) /\
  (0 <= Features.action_count txs action
     <= Features.total_txs (Features.calculate_wallet_features txs))%Z /\
  (Z.of_nat (List.length (Features.amounts_of txs action))
     <= Features.action_count txs action)%Z.
Proof.
  intros Ha. split; [|split].
  - cbn [Features.calculate_wallet_features Features.action_counts].
    unfold ACTIONS in *. simpl in Ha.
    repeat (destruct Ha as [<-|Ha]; [reflexivity|]). contradiction.
  - cbn [Features.calculate_wallet_features Features.total_txs].
    rewrite features_action_count_filter.
    pose proof (filter_length_le
                  (fun t => Py.contains (Py.lower (Features.type t)) action) txs).
    lia.
  - rewrite features_action_count_filter. unfold Features.amounts_of.
    rewrite length_map. apply inj_le. apply filter_length_le_impl.
    intros t Ht. apply String.eqb_eq in Ht. rewrite Ht. apply contains_self.
Qed.

Lemma action_counts_bounds_witness :
  dict_get (Features.action_counts (Features.calculate_wallet_features borrower_wallet))
           ("deposit" ++ "_count")
    = Some (Features.action_count borrower_wallet "deposit") /\
  (0 <= Features.action_count borrower_wallet "deposit"
     <= Features.total_txs (Features.calculate_wallet_features borrower_wallet))%Z /\
  (Z.of_nat (List.length (Features.amounts_of borrower_wallet "deposit"))
     <= Features.action_count borrower_wallet "deposit")%Z.
Proof. apply (action_counts_bounds borrower_wallet "deposit"). simpl. auto. Defined.

(** In the borrower's wallet the "depositETH" transaction is counted as a
    deposit, but its 500 USD are not in [total_deposit_value]. *)
Example deposit_count_and_value_disagree :
  Features.action_count borrower_wallet "deposit" = 1%Z /\
  Features.total_deposit_value (Features.calculate_wallet_features borrower_wallet) = 0 /\
  Features.borrow_to_deposit_ratio (Features.calculate_wallet_features borrower_wallet)
    = 40000000.
Proof. repeat split; vm_compute; reflexivity. Qed.

(** ** Grouping by wallet ([generate_all_features]) *)

Lemma insert_key_perm (k : string) (ks : list string) :
  Permutation (Features.insert_key k ks) (k :: ks).
Proof.
  induction ks as [|k' ks IH]; simpl; [apply Permutation_refl|].
  destruct (String.leb k k'); [apply Permutation_refl|].
  rewrite IH. apply perm_swap.
Qed.

Lemma sort_keys_perm (ks : list string) : Permutation (Features.sort_keys ks) ks.
Proof.
  induction ks as [|k ks IH]; simpl; [constructor|].
  rewrite insert_key_perm. now constructor.
Qed.

Lemma insert_key_sorted (k : string) (ks : list string) :
  Sorted (fun a b => String.leb a b = true) ks ->
  Sorted (fun a b => String.leb a b = true) (Features.insert_key k ks).
Proof.
  induction ks as [|k' ks IH]; simpl; intros Hs.
  - repeat constructor.
  - destruct (String.leb k k') eqn:E.
    + constructor; [assumption|]. now constructor.
    + assert (Hk : String.leb k' k = true)
        by (destruct (String.leb_total k k') as [H|H]; congruence).
      inversion Hs as [|? ? Hs' Hhd]; subst. constructor; [auto|].
      destruct ks as [|k'' ks]; simpl.
      * now constructor.
      * destruct (String.leb k k''); constructor; auto.
        now inversion Hhd.
Qed.

Lemma sort_keys_sorted (ks : list string) :
  Sorted (fun a b => String.leb a b = true) (Features.sort_keys ks).
Proof.
  induction ks as [|k ks IH]; simpl; [constructor|]. now apply insert_key_sorted.
Qed.

Lemma group_keys_spec (txs : list Features.Transaction) :
  NoDup (Features.group_keys txs) /\
  forall w, In w (Features.group_keys txs) <-> In w (map Features.user txs).
Proof.
  unfold Features.group_keys. split.
  - eapply Permutation_NoDup; [apply Permutation_sym, sort_keys_perm | apply NoDup_nodup].
  - intros w. split; intros H.
    + apply (nodup_In string_dec). eapply Permutation_in; [apply sort_keys_perm | exact H].
    + eapply Permutation_in; [apply Permutation_sym, sort_keys_perm|].
      now apply (nodup_In string_dec).
Qed.

(** Among distinct keys exactly one equals a key that is present. *)
Lemma one_key_matches (ks : list string) (u : string) :
  NoDup ks -> In u ks ->
  list_sum (map (fun w => if String.eqb u w then 1 else 0)%nat ks) = 1%nat.
Proof.
  induction ks as [|k ks IH]; intros Hnd Hin; [contradiction|].
  inversion Hnd as [|? ? Hk Hnd']; subst. simpl.
  destruct (String.eqb u k) eqn:E.
  - apply String.eqb_eq in E. subst k.
    assert (Z0 : list_sum (map (fun w => if String.eqb u w then 1 else 0)%nat ks) = 0%nat).
    { clear IH Hnd Hnd' Hin. induction ks as [|k ks IH]; [reflexivity|]. simpl.
      destruct (String.eqb u k) eqn:E.
      - apply String.eqb_eq in E. subst k. exfalso. apply Hk. now left.
      - apply IH. intros H. apply Hk. now right. }
    now rewrite Z0.
  - destruct Hin as [->|Hin]; [rewrite String.eqb_refl in E; discriminate|].
    simpl. now apply IH.
Qed.

Lemma groups_partition (ks : list string) (txs : list Features.Transaction) :
  NoDup ks -> (forall t, In t txs -> In (Features.user t) ks) ->
  list_sum (map (fun w => List.length
                            (filter (fun t => String.eqb (Features.user t) w) txs)) ks)
  = List.length txs.
Proof.
  intros Hnd. induction txs as [|t txs IH]; intros Hall.
  - clear Hnd Hall. induction ks as [|k ks IHk]; [reflexivity|]. simpl. exact IHk.
  - assert (E : forall l : list string,
               list_sum (map (fun w => List.length
                   (filter (fun t0 => String.eqb (Features.user t0) w) (t :: txs))) l)
               = (list_sum (map (fun w => if String.eqb (Features.user t) w then 1 else 0) l)
                  + list_sum (map (fun w => List.length
                      (filter (fun t0 => String.eqb (Features.user t0) w) txs)) l))%nat).
    { unfold list_sum. induction l as [|k l IHl]; [reflexivity|]. cbn [map fold_right].
      rewrite IHl. cbn [filter].
      destruct (String.eqb (Features.user t) k); cbn [List.length]; lia. }
    rewrite E, IH by (intros u Hu; apply Hall; now right).
    rewrite one_key_matches; [reflexivity | exact Hnd | apply Hall; now left].
Qed.

(** X10: [generate_all_features] returns one row per distinct user, in
    ascending order of the user's text and without repetition; a wallet has a
    row exactly when some transaction is its own; and the [total_txs] of the
    rows add up to the number of transactions. *)
Theorem generate_all_features_groups (transactions_df : list Features.Transaction) :
  NoDup (map fst (Features.generate_all_features transactions_df)) /\
  Sorted (fun a b => String.leb a b = true)
         (map fst (Features.generate_all_features transactions_df)) /\
  (forall wallet,
     In wallet (map fst (Features.generate_all_features transactions_df))
     <-> exists t, In t transactions_df /\ Features.user t = wallet) /\
  fold_right Z.add 0%Z
    (map (fun row => Features.total_txs (snd row))
         (Features.generate_all_features transactions_df))
  = Z.of_nat (List.length transactions_df).
Proof.
  unfold Features.generate_all_features.
  rewrite map_map. cbn [fst]. rewrite map_id.
  destruct (group_keys_spec transactions_df) as [Hnd Hin].
  split; [exact Hnd|]. split; [apply sort_keys_sorted|]. split.
  - intros w. rewrite Hin, in_map_iff. split; intros (t & H1 & H2); exists t; tauto.
  - rewrite map_map. cbn [snd Features.calculate_wallet_features Features.total_txs].
    rewrite <- (groups_partition (Features.group_keys transactions_df) transactions_df Hnd)
      by (intros t Ht; apply Hin; now apply in_map).
    clear Hnd Hin. unfold list_sum.
    induction (Features.group_keys transactions_df) as [|k ks IH]; [reflexivity|].
    cbn [map fold_right]. rewrite IH. lia.
Qed.

(** The transactions of the example wallets, together: two users. *)
Example generate_all_features_example :
  map fst (Features.generate_all_features
             (single_transaction_wallet ++ example_wallet ++ borrower_wallet))
    = ["0xA"; "0xB"; "0xC"]%string /\
  map (fun row => Features.total_txs (snd row))
      (Features.generate_all_features
         (single_transaction_wallet ++ example_wallet ++ borrower_wallet))
    = [4; 1; 2]%Z.
Proof. split; vm_compute; reflexivity. Qed.

(** ** More on [src/main.py] *)

(** X11: [generate_features] raises [KeyError] exactly when the frame has
    none of the columns 'userWallet', 'user', 'address' and 'userId'. *)
Theorem generate_features_key_error `{Externals} (transactions_df : DataFrame) :
  Main.generate_features transactions_df = Raise KeyError <->
  forall col, In col ["userWallet"; "user"; "address"; "userId"]%string ->
    has_column (columns transactions_df) col = false.
Proof.
  unfold Main.generate_features, first_present.
  destruct (find _ _) as [wallet_col|] eqn:Ef.
  - split.
    + destruct (negb (forallb Main.hashable _)); [discriminate|].
      cbv zeta.
      destruct (has_column _ "first_activity" && has_column _ "last_activity").
      * cbn [Main.f_columns].
        destruct (Main.f_columns _ ++ _); discriminate.
      * destruct (Main.f_columns _); discriminate.
    + intros Hnone. apply find_some in Ef as [Hin Hhas].
      rewrite (Hnone _ Hin) in Hhas. discriminate.
  - split; [|reflexivity]. intros _ col Hin.
    exact (find_none _ _ Ef col Hin).
Qed.

(** A frame without a wallet column. *)
Definition frame_without_wallet : DataFrame := {|
  columns := ["wallet_address"; "action"]%string;
  records := [[("wallet_address", JStr "0xA"); ("action", JStr "deposit")]%string]
|}.

Lemma generate_features_key_error_witness :
  @Main.generate_features example_externals frame_without_wallet = Raise KeyError.
Proof.
  apply (proj2 (@generate_features_key_error example_externals frame_without_wallet)).
  intros col Hin. simpl in Hin.
  repeat (destruct Hin as [<-|Hin]; [reflexivity|]). contradiction.
Defined.

(** X12: when the file holds one JSON document, [load_data] returns it
    unless the document is a number, a boolean or null; then the [len(data)]
    of the success message raises [TypeError], which the handler for
    [JSONDecodeError] does not catch. *)
Theorem load_data_whole_document `{Externals}
    (fs : string -> option Main.fs_entry) (filepath content : string) (data : json) :
  fs filepath = Some (Main.File content) ->
  json_loads content = Some data ->
  Main.load_data fs filepath
  = match data with
    | JNull | JBool _ | JNum _ => Raise TypeError
    | _ => Ok data
    end.
Proof.
  intros Hfs Hparse. unfold Main.load_data. rewrite Hfs, Hparse.
  destruct data; reflexivity.
Qed.

(** A parser that reads the document [5] and nothing else. *)
Definition number_externals : Externals := {|
  json_loads := fun s => if String.eqb s "5" then Some (JNum 5) else None;
  float_of_str := fun _ => None;
  to_datetime := fun _ => None;
  histogram_entropy := fun _ => 0%float
|}.

Lemma load_data_whole_document_witness :
  @Main.load_data number_externals (one_file "transactions.json" "5") "transactions.json"
  = Raise TypeError.
Proof.
  apply (@load_data_whole_document number_externals
           (one_file "transactions.json" "5") "transactions.json" "5" (JNum 5));
    reflexivity.
Defined.

(** X13: [calculate_wallet_features] lets an exception out whenever the
    frame has a timestamp column with a cell that [pd.to_datetime] refuses,
    and whenever it has a 'txHash' column with an unhashable cell: neither
    call is inside a [try]. *)
Theorem calculate_wallet_features_raises `{Externals}
    (cols : list string) (wallet_transactions : list (dict json)) :
  (exists timestamp_col,
     first_present ["timestamp"; "block_timestamp"; "createdAt"]%string cols
       = Some timestamp_col /\
     traverse to_datetime (column wallet_transactions timestamp_col) = None)
  \/
  (has_column cols "txHash"%string = true /\
   forallb Main.hashable (column wallet_transactions "txHash"%string) = false) ->
  exists e, Main.calculate_wallet_features cols wallet_transactions = Raise e.
Proof.
  unfold Main.calculate_wallet_features, Main.nunique.
  intros [(timestamp_col & Ets & Etr)|[Etx Eh]].
  - rewrite Ets, Etr. eauto.
  - rewrite Etx, Eh.
    destruct (first_present ["timestamp"; "block_timestamp"; "createdAt"]%string cols)
      as [timestamp_col|]; [|eauto].
    destruct (traverse to_datetime (column wallet_transactions timestamp_col)); eauto.
Qed.

Lemma calculate_wallet_features_raises_witness :
  exists e,
    @Main.calculate_wallet_features example_externals
       ["timestamp"]%string [[("timestamp", JStr "yesterday")]%string]
    = Raise e.
Proof.
  apply (@calculate_wallet_features_raises example_externals
           ["timestamp"]%string [[("timestamp", JStr "yesterday")]%string]).
  left. exists "timestamp"%string. split; reflexivity.
Defined.

Lemma has_column_In (cols : list string) (col : string) :
  has_column cols col = true <-> In col cols.
Proof.
  unfold has_column. rewrite existsb_exists. split.
  - intros (k & Hk & He). apply String.eqb_eq in He. now subst.
  - intros Hin. exists col. split; [exact Hin | apply String.eqb_refl].
Qed.

Lemma fillna_0_numeric (v : Main.fval) :
  match v with Main.VInt _ | Main.VFloat _ => true | _ => false end = true ->
  is_nan (Main.fillna_0 v) = false.
Proof.
  destruct v as [n|x|t|k]; try discriminate; intros _; cbn [Main.fillna_0].
  - apply float_of_int_not_nan.
  - destruct (is_nan x) eqn:E; [reflexivity | exact E].
Qed.

Lemma is_numeric_dtype_In (cells : list Main.fval) (v : Main.fval) :
  Main.is_numeric_dtype cells = true -> In v cells ->
  match v with Main.VInt _ | Main.VFloat _ => true | _ => false end = true.
Proof.
  intros Hn Hin. destruct cells as [|c cells]; [contradiction|].
  unfold Main.is_numeric_dtype in Hn. rewrite forallb_forall in Hn.
  exact (Hn v Hin).
Qed.

(** X14: the matrix [train_model] hands to the scaler,
    [features_df[numeric_cols].fillna(0)], always exists (no selected name is
    missing from the frame), has one row per wallet and one entry per
    selected column, holds no NaN, and never contains the columns 'wallet',
    'first_activity' and 'last_activity'. *)
Theorem train_model_matrix (features_df : Main.FeaturesFrame) :
  exists X,
    Main.select_fillna features_df (Main.numeric_cols features_df) = Some X /\
    List.length X = List.length (Main.f_rows features_df) /\
    (forall row, In row X ->
       List.length row = List.length (Main.numeric_cols features_df) /\
       forall x, In x row -> is_nan x = false) /\
    (forall col, In col (Main.numeric_cols features_df) ->
       In col (Main.f_columns features_df) /\ ~ In col Main.exclude_cols).
Proof.
  unfold Main.select_fillna.
  assert (Hcols : forall col, In col (Main.numeric_cols features_df) ->
            In col (Main.f_columns features_df) /\
            has_column Main.exclude_cols col = false /\
            Main.is_numeric_dtype (Main.column_values features_df col) = true).
  { intros col Hin. unfold Main.numeric_cols in Hin.
    apply filter_In in Hin as [Hin Hc]. apply andb_true_iff in Hc as [Hx Hn].
    apply negb_true_iff in Hx. auto. }
  replace (forallb (has_column (Main.f_columns features_df)) (Main.numeric_cols features_df))
    with true.
  2:{ symmetry. apply forallb_forall. intros col Hin.
      apply has_column_In. now apply Hcols. }
  eexists. split; [reflexivity|]. split; [apply length_map|]. split.
  - intros row Hrow. apply in_map_iff in Hrow as (r & <- & Hr). split; [apply length_map|].
    intros x Hx. apply in_map_iff in Hx as (col & <- & Hcol).
    apply fillna_0_numeric.
    destruct (Hcols col Hcol) as (_ & _ & Hn).
    apply (is_numeric_dtype_In _ _ Hn).
    unfold Main.column_values. apply in_map_iff. now exists r.
  - intros col Hcol. destruct (Hcols col Hcol) as (Hin & Hx & _). split; [exact Hin|].
    intros Hex. apply has_column_In in Hex. congruence.
Qed.

(** ** [src/analysis.py]: the score ranges of the report *)

Lemma ltb_not_leb (a b : float) : (a <? b) = true -> (b <=? a) = false.
Proof.
  rewrite FloatAxioms.ltb_spec, FloatAxioms.leb_spec. unfold SFltb, SFleb.
  rewrite (SFcompare_antisym (Prim2SF a) (Prim2SF b)).
  destruct (SFcompare (Prim2SF a) (Prim2SF b)) as [[]|]; simpl; congruence.
Qed.

Lemma leb_false_ltb (a b : float) :
  is_nan a = false -> is_nan b = false -> (a <=? b) = false -> (b <? a) = true.
Proof.
  rewrite !is_nan_false, FloatAxioms.ltb_spec, FloatAxioms.leb_spec.
  unfold SFltb, SFleb.
  rewrite (SFcompare_antisym (Prim2SF a) (Prim2SF b)).
  intros Ha Hb.
  destruct (SFcompare (Prim2SF a) (Prim2SF b)) as [[]|] eqn:E; simpl; try congruence.
  destruct (Prim2SF a), (Prim2SF b); simpl in E; congruence.
Qed.

Lemma ltb_false_leb (a b : float) :
  is_nan a = false -> is_nan b = false -> (a <? b) = false -> (b <=? a) = true.
Proof.
  rewrite !is_nan_false, FloatAxioms.ltb_spec, FloatAxioms.leb_spec.
  unfold SFltb, SFleb.
  rewrite (SFcompare_antisym (Prim2SF a) (Prim2SF b)).
  intros Ha Hb.
  destruct (SFcompare (Prim2SF a) (Prim2SF b)) as [[]|] eqn:E; simpl; try congruence.
  destruct (Prim2SF a), (Prim2SF b); simpl in E; congruence.
Qed.

Lemma ltb_not_nan_r (a b : float) : (a <? b) = true -> is_nan b = false.
Proof. intros H. apply ltb_leb in H. eapply leb_not_nan_r; eauto. Qed.

(** The edges of the bins, as [pd.cut] compares them with a score. *)
Definition edge_le (a b : Z) : Prop :=
  (Np.float_of_int a <=? Np.float_of_int b) = true.

Lemma edge_le_refl (a : Z) : edge_le a a.
Proof. apply leb_refl, float_of_int_not_nan. Qed.

Lemma sorted_hd_le (hi : Z) (rest : list Z) (l : Z) :
  StronglySorted edge_le (hi :: rest) -> In l (hi :: rest) -> edge_le hi l.
Proof.
  intros Hs [<-|Hin]; [apply edge_le_refl|].
  apply StronglySorted_inv in Hs as [_ Hall].
  rewrite Forall_forall in Hall. now apply Hall.
Qed.

Lemma cut_Some (x : float) (edges : list Z) : forall (names : list string) (name : string),
  StronglySorted edge_le edges ->
  Analysis.cut x edges names = Some name <->
  exists k lo hi,
    nth_error edges k = Some lo /\ nth_error edges (S k) = Some hi /\
    nth_error names k = Some name /\
    (Np.float_of_int lo <? x) = true /\ (x <=? Np.float_of_int hi) = true.
Proof.
  induction edges as [|lo rest IH]; intros names name Hs.
  - simpl. split; [discriminate|]. intros (k & l & h & Hl & _). destruct k; discriminate.
  - destruct rest as [|hi rest'].
    + simpl. split; [discriminate|].
      intros (k & l & h & _ & Hh & _). destruct k; discriminate.
    + destruct names as [|name0 names'].
      * simpl. split; [discriminate|].
        intros (k & l & h & _ & _ & Hn & _). destruct k; discriminate.
      * pose proof (StronglySorted_inv Hs) as [Hs' _].
        cbn [Analysis.cut].
        destruct ((Np.float_of_int lo <? x) && (x <=? Np.float_of_int hi)) eqn:Et.
        -- apply andb_true_iff in Et as [Et1 Et2]. split.
           ++ intros [= <-]. exists 0%nat, lo, hi. repeat split; assumption.
           ++ intros (k & l & h & Hl & Hh & Hn & Hlt & Hle).
              destruct k as [|k]; [simpl in Hn; congruence|].
              exfalso. cbn [nth_error] in Hl.
              assert (Hhl : edge_le hi l)
                by (eapply sorted_hd_le; eauto using nth_error_In).
              pose proof (leb_trans _ _ _ Et2 Hhl) as Hxl.
              apply ltb_not_leb in Hlt. congruence.
        -- rewrite (IH names' name Hs'). split.
           ++ intros (k & l & h & Hl & Hh & Hn & Hlt & Hle).
              exists (S k), l, h. repeat split; assumption.
           ++ intros (k & l & h & Hl & Hh & Hn & Hlt & Hle).
              destruct k as [|k].
              ** simpl in Hl, Hh. injection Hl as <-. injection Hh as <-.
                 rewrite Hlt, Hle in Et. discriminate.
              ** exists k, l, h. repeat split; assumption.
Qed.

Lemma cut_nth (x : float) (edges : list Z) (names : list string) (k : nat) (d : string) :
  StronglySorted edge_le edges -> NoDup names ->
  (k < List.length names)%nat -> List.length edges = S (List.length names) ->
  Analysis.cut x edges names = Some (nth k names d) <->
  (Np.float_of_int (nth k edges 0%Z) <? x) = true /\
  (x <=? Np.float_of_int (nth (S k) edges 0%Z)) = true.
Proof.
  intros Hs Hnd Hk Hlen. rewrite cut_Some by assumption. split.
  - intros (j & l & h & Hl & Hh & Hn & Hlt & Hle).
    assert (Hj : (j < List.length names)%nat)
      by (apply nth_error_Some; congruence).
    assert (j = k) as ->.
    { rewrite NoDup_nth_error in Hnd. apply Hnd; [exact Hj|].
      rewrite Hn. symmetry. now apply nth_error_nth'. }
    rewrite (nth_error_nth _ _ 0%Z Hl), (nth_error_nth _ _ 0%Z Hh). now split.
  - intros [Hlt Hle].
    exists k, (nth k edges 0%Z), (nth (S k) edges 0%Z).
    repeat split; try assumption; apply nth_error_nth'; lia.
Qed.

Lemma cut_None (x : float) (names : list string) : forall edges : list Z,
  StronglySorted edge_le edges ->
  List.length edges = S (List.length names) -> names <> [] ->
  Analysis.cut x edges names = None <->
  (Np.float_of_int (hd 0%Z edges) <? x) = false \/
  (x <=? Np.float_of_int (last edges 0%Z)) = false.
Proof.
  induction names as [|name0 names' IH]; intros edges Hs Hlen Hne; [congruence|].
  destruct edges as [|lo [|hi rest']]; try discriminate.
  pose proof (StronglySorted_inv Hs) as [Hs' Hall].
  assert (Hlohi : edge_le lo hi) by (inversion Hall; assumption).
  cbn [Analysis.cut hd].
  change (last (lo :: hi :: rest') 0%Z) with (last (hi :: rest') 0%Z).
  destruct ((Np.float_of_int lo <? x) && (x <=? Np.float_of_int hi)) eqn:Et.
  - apply andb_true_iff in Et as [Et1 Et2]. split; [discriminate|].
    intros [Hf|Hf]; [congruence|]. exfalso.
    assert (Hl : edge_le hi (last (hi :: rest') 0%Z)).
    { apply (sorted_hd_le hi rest'); [exact Hs'|].
      destruct (exists_last (l := hi :: rest')) as (l' & a & E); [discriminate|].
      rewrite E, last_last. apply in_or_app. right. now left. }
    pose proof (leb_trans _ _ _ Et2 Hl). congruence.
  - destruct names' as [|name1 names''].
    + destruct rest' as [|? ?]; [|discriminate].
      cbn [Analysis.cut last]. apply andb_false_iff in Et. tauto.
    + rewrite (IH (hi :: rest') Hs') by (simpl in *; congruence).
      cbn [hd]. apply andb_false_iff in Et.
      pose proof (float_of_int_not_nan lo) as Nlo.
      pose proof (float_of_int_not_nan hi) as Nhi.
      split.
      * intros [Hf|Hf]; [|now right].
        destruct (Np.float_of_int lo <? x) eqn:El; [|now left].
        destruct Et as [Et|Et]; [discriminate|]. exfalso.
        pose proof (ltb_not_nan_r _ _ El) as Nx.
        pose proof (leb_false_ltb _ _ Nx Nhi Et). congruence.
      * intros [Hf|Hf]; [|now right].
        destruct (Np.float_of_int hi <? x) eqn:Eh; [|now left]. exfalso.
        pose proof (ltb_not_nan_r _ _ Eh) as Nx.
        pose proof (ltb_false_leb _ _ Nlo Nx Hf) as Hxlo.
        pose proof (leb_trans _ _ _ Hxlo Hlohi) as Hxhi.
        apply ltb_not_leb in Eh. congruence.
Qed.

Lemma bins_sorted : StronglySorted edge_le Analysis.bins.
Proof. repeat constructor. Qed.

Lemma labels_NoDup : NoDup Analysis.labels.
Proof.
  assert (E : nodup string_dec Analysis.labels = Analysis.labels)
    by (vm_compute; reflexivity).
  rewrite <- E. apply NoDup_nodup.
Qed.

Lemma range_by_100_nth (count k : nat) :
  (k < count)%nat -> nth k (Analysis.range_by_100 count) 0%Z = (100 * Z.of_nat k)%Z.
Proof.
  intros Hk. unfold Analysis.range_by_100.
  change 0%Z with ((fun i => (100 * Z.of_nat i)%Z) 0%nat) at 1.
  rewrite map_nth, seq_nth by exact Hk. reflexivity.
Qed.

(** X15: a score gets the label of position [k] (["0-99"], ["100-199"],
    ..., ["900-999"]) exactly when [100 k < score <= 100 k + 100]: the ranges
    are open on the left and closed on the right, so that a score of exactly
    100 is reported under ["0-99"] and 1000 under ["900-999"]. *)
Theorem score_range_label (credit_score : float) (k : nat) :
  (k < 10)%nat ->
  Analysis.cut credit_score Analysis.bins Analysis.labels
    = Some (nth k Analysis.labels EmptyString) <->
  (Np.float_of_int (100 * Z.of_nat k) <? credit_score) = true /\
  (credit_score <=? Np.float_of_int (100 * Z.of_nat k + 100)) = true.
Proof.
  intros Hk.
  rewrite (cut_nth credit_score Analysis.bins Analysis.labels k EmptyString
             bins_sorted labels_NoDup Hk eq_refl).
  unfold Analysis.bins. rewrite !range_by_100_nth by lia.
  replace (100 * Z.of_nat (S k))%Z with (100 * Z.of_nat k + 100)%Z by lia.
  reflexivity.
Qed.

Lemma score_range_label_witness :
  Analysis.cut 1000 Analysis.bins Analysis.labels = Some "900-999"%string.
Proof.
  apply (proj2 (score_range_label 1000 9 ltac:(lia))). split; reflexivity.
Defined.

(** X16: a score has no range exactly when it is not in [(0, 1000]]: a
    score of 0 (lowest edge excluded), a negative score, a score above 1000
    and NaN are all left out of the report. *)
Theorem score_range_missing (credit_score : float) :
  Analysis.cut credit_score Analysis.bins Analysis.labels = None <->
  (0 <? credit_score) = false \/ (credit_score <=? 1000) = false.
Proof.
  rewrite (cut_None credit_score Analysis.labels Analysis.bins bins_sorted eq_refl)
    by discriminate.
  reflexivity.
Qed.

Definition has_label (name : string) (r : option string) : bool :=
  match r with
  | Some n => String.eqb n name
  | None => false
  end.

Definition is_labelled (r : option string) : bool :=
  match r with
  | Some _ => true
  | None => false
  end.

Lemma one_label_matches (n : string) (names : list string) :
  NoDup names -> In n names ->
  list_sum (map (fun name => if String.eqb n name then 1 else 0)%nat names) = 1%nat.
Proof.
  induction names as [|a names IH]; intros Hnd Hin; [contradiction|].
  inversion Hnd as [|? ? Hna Hnd']; subst. cbn [map list_sum fold_right].
  fold (list_sum (map (fun name => if String.eqb n name then 1 else 0)%nat names)).
  destruct (String.eqb n a) eqn:E.
  - apply String.eqb_eq in E. subst a.
    replace (list_sum _) with 0%nat; [reflexivity|].
    symmetry. clear IH Hnd Hnd' Hin.
    induction names as [|b names IH]; [reflexivity|].
    cbn [map list_sum fold_right].
    fold (list_sum (map (fun name => if String.eqb n name then 1 else 0)%nat names)).
    destruct (String.eqb n b) eqn:E.
    + apply String.eqb_eq in E. subst b. exfalso. apply Hna. now left.
    + rewrite IH; [reflexivity|]. intros H. apply Hna. now right.
  - destruct Hin as [->|Hin]; [rewrite String.eqb_refl in E; discriminate|].
    now rewrite IH.
Qed.

Lemma no_label_matches (names : list string) :
  list_sum (map (fun _ : string => 0%nat) names) = 0%nat.
Proof. induction names; simpl; auto. Qed.

Lemma list_sum_map_add {A : Type} (f g : A -> nat) (l : list A) :
  list_sum (map (fun a => f a + g a)%nat l)
  = (list_sum (map f l) + list_sum (map g l))%nat.
Proof.
  induction l as [|a l IH]; [reflexivity|].
  cbn [map list_sum fold_right].
  fold (list_sum (map (fun a => f a + g a)%nat l)).
  fold (list_sum (map f l)). fold (list_sum (map g l)). lia.
Qed.

Lemma labels_partition (names : list string) (rs : list (option string)) :
  NoDup names ->
  (forall n, In (Some n) rs -> In n names) ->
  list_sum (map (fun name => List.length (filter (has_label name) rs)) names)
  = List.length (filter is_labelled rs).
Proof.
  intros Hnd. induction rs as [|r rs IH]; intros Hin.
  - simpl. apply no_label_matches.
  - rewrite (map_ext _ (fun name => (if has_label name r then 1 else 0)
                                    + List.length (filter (has_label name) rs))%nat).
    2:{ intros name. cbn [filter]. destruct (has_label name r); reflexivity. }
    rewrite list_sum_map_add, IH by (intros n Hn; apply Hin; now right).
    destruct r as [n|]; cbn [filter is_labelled has_label List.length].
    + rewrite one_label_matches; [reflexivity | exact Hnd | apply Hin; now left].
    + now rewrite no_label_matches.
Qed.

Lemma cut_In (x : float) (edges : list Z) : forall (names : list string) (name : string),
  Analysis.cut x edges names = Some name -> In name names.
Proof.
  induction edges as [|lo rest IH]; intros names name; [discriminate|].
  destruct rest as [|hi rest']; [discriminate|].
  destruct names as [|name0 names']; [discriminate|].
  cbn [Analysis.cut].
  destruct ((Np.float_of_int lo <? x) && (x <=? Np.float_of_int hi)).
  - intros [= <-]. now left.
  - intros Hc. right. exact (IH names' name Hc).
Qed.

Lemma cut_bins_None (s : float) :
  Analysis.cut s Analysis.bins Analysis.labels = None <->
  (0 <? s) && (s <=? 1000) = false.
Proof.
  rewrite (cut_None s Analysis.labels Analysis.bins bins_sorted eq_refl)
    by discriminate.
  rewrite andb_false_iff. reflexivity.
Qed.

Lemma stats_counts_sum (credit_score : list float) :
  list_sum (map snd (Analysis.stats credit_score))
  = List.length (filter (fun s => (0 <? s) && (s <=? 1000)) credit_score).
Proof.
  unfold Analysis.stats. rewrite !map_map. cbn [snd].
  change (fun name : string =>
            List.length
              (filter (fun r => match r with
                                | Some n => String.eqb n name
                                | None => false
                                end) (Analysis.score_range credit_score)))
    with (fun name => List.length (filter (has_label name) (Analysis.score_range credit_score))).
  rewrite labels_partition.
  - unfold Analysis.score_range. clear.
    induction credit_score as [|s l IH]; [reflexivity|].
    cbn [map filter].
    destruct (Analysis.cut s Analysis.bins Analysis.labels) eqn:Ec.
    + assert (Hin : (0 <? s) && (s <=? 1000) = true).
      { destruct ((0 <? s) && (s <=? 1000)) eqn:E; [reflexivity|].
        apply cut_bins_None in E. congruence. }
      rewrite Hin. cbn [is_labelled List.length]. now rewrite IH.
    + apply cut_bins_None in Ec. rewrite Ec.
      cbn [is_labelled]. exact IH.
  - apply labels_NoDup.
  - intros n Hn. unfold Analysis.score_range in Hn.
    apply in_map_iff in Hn as (s & Hs & _). exact (cut_In _ _ _ _ Hs).
Qed.

(** X17: the table of the report has one row per label, in the order of
    the labels (empty ranges included), and its counts add up to the number
    of scores in [(0, 1000]]: every such score is counted once, and no other
    score is counted. *)
Theorem stats_total (credit_score : list float) :
  map fst (Analysis.stats credit_score) = Analysis.labels /\
  list_sum (map snd (Analysis.stats credit_score))
  = List.length (filter (fun s => (0 <? s) && (s <=? 1000)) credit_score).
Proof.
  split; [|apply stats_counts_sum].
  unfold Analysis.stats. rewrite map_map. cbn [fst]. apply map_id.
Qed.

Lemma filter_length_lt {A : Type} (p : A -> bool) (l : list A) (x : A) :
  In x l -> p x = false -> (List.length (filter p l) < List.length l)%nat.
Proof.
  induction l as [|a l IH]; intros Hin Hp; [contradiction|].
  cbn [filter]. pose proof (filter_length_le p l) as Hle.
  destruct Hin as [->|Hin].
  - rewrite Hp. simpl. lia.
  - specialize (IH Hin Hp). destruct (p a); simpl; lia.
Qed.

Lemma zero_not_positive (z : float) (s : bool) :
  Prim2SF z = S754_zero s -> (0 <? z) = false.
Proof.
  intros Hz. destruct (0 <? z) eqn:E; [|reflexivity].
  apply ltb_zero_spec in E. rewrite Hz in E. contradiction.
Qed.

Lemma lowest_score_zero (r lo hi : float) :
  is_finite r = true -> is_finite lo = true -> is_finite hi = true ->
  (lo <? hi) = true -> (r =? lo) = true ->
  exists s, Prim2SF (clip_score (1000 * (r - lo) / (hi - lo))) = S754_zero s.
Proof.
  intros Fr Flo Fhi Hlt He.
  assert (Hd : (0 <? hi - lo) = true) by (apply sub_pos; assumption).
  destruct (sub_eqb_zero r lo Fr Flo He) as [s0 Hz].
  apply mul_1000_zero in Hz. apply (div_zero_pos _ (hi - lo)) in Hz; [|exact Hd].
  rewrite (clip_score_zero _ _ Hz). eauto.
Qed.

(** X18: composition of [generate_scores] with the report.  For finite
    raw scores with minimum below maximum, every wallet whose raw score is
    the minimum gets the score 0, which lies on the excluded lowest edge:
    its [score_range] is missing, and the counts of the table add up to
    less than the number of wallets. *)
Theorem lowest_score_not_reported (raw scores : list float) (lo hi : float) :
  Forall (fun x => is_finite x = true) raw ->
  Np.min raw = Some lo -> Np.max raw = Some hi -> (lo <? hi) = true ->
  Main.generate_scores raw = Some scores ->
  (forall i r, nth_error raw i = Some r -> (r =? lo) = true ->
     nth_error (Analysis.score_range scores) i = Some None) /\
  (list_sum (map snd (Analysis.stats scores)) < List.length raw)%nat.
Proof.
  intros Hfin Hmin Hmax Hlt. unfold Main.generate_scores. rewrite Hmin, Hmax.
  intros [= <-]. rewrite Forall_forall in Hfin.
  assert (Flo : is_finite lo = true) by (apply Hfin, min_In; assumption).
  assert (Fhi : is_finite hi = true) by (apply Hfin, max_In; assumption).
  split.
  - intros i r Hi He. unfold Analysis.score_range, Np.clip.
    rewrite !nth_error_map, Hi. cbn [option_map]. f_equal.
    fold (clip_score (1000 * (r - lo) / (hi - lo))).
    assert (Fr : is_finite r = true) by (apply Hfin; eapply nth_error_In; eauto).
    destruct (lowest_score_zero r lo hi Fr Flo Fhi Hlt He) as [s Hz].
    apply cut_bins_None. now rewrite (zero_not_positive _ _ Hz).
  - rewrite stats_counts_sum.
    replace (List.length raw)
      with (List.length (Np.clip (map (fun r => 1000 * (r - lo) / (hi - lo)) raw) 0 1000))
      by (unfold Np.clip; now rewrite !length_map).
    apply (filter_length_lt _ _ (clip_score (1000 * (lo - lo) / (hi - lo)))).
    + unfold Np.clip. rewrite map_map. apply in_map_iff. exists lo.
      split; [reflexivity | apply min_In; assumption].
    + destruct (lowest_score_zero lo lo hi Flo Flo Fhi Hlt) as [s Hz].
      { apply eqb_refl_not_nan, is_finite_not_nan, Flo. }
      now rewrite (zero_not_positive _ _ Hz).
Qed.

Lemma lowest_score_not_reported_witness :
  (forall i r, nth_error [-0.2; 0.02; 0.15] i = Some r -> (r =? -0.2) = true ->
     nth_error (Analysis.score_range [0; 628.57142857142856; 1000]) i = Some None) /\
  (list_sum (map snd (Analysis.stats [0; 628.57142857142856; 1000]%float)) < 3)%nat.
Proof.
  apply (lowest_score_not_reported [-0.2; 0.02; 0.15] [0; 628.57142857142856; 1000]
                                   (-0.2) 0.15).
  - repeat constructor.
  - reflexivity.
  - reflexivity.
  - reflexivity.
  - reflexivity.
Defined.

Lemma unique_In (series : list json) (c : json) :
  In c (Main.unique series) -> In c series.
Proof.
  induction series as [|d rest IH]; [contradiction|].
  cbn [Main.unique]. intros [<-|Hin]; [now left|].
  right. apply IH. apply filter_In in Hin. tauto.
Qed.

Lemma flat_map_nil {A B : Type} (f : A -> list B) (l : list A) :
  (forall a, In a l -> f a = []) -> flat_map f l = [].
Proof.
  induction l as [|a l IH]; intros Hf; [reflexivity|].
  cbn [flat_map]. rewrite (Hf a) by now left.
  apply IH. intros b Hb. apply Hf. now right.
Qed.

(** X19: when the frame has a wallet column with hashable cells and the
    feature computation raises for every wallet (or there is no wallet at
    all: no rows, or only missing identifiers), [generate_features] does not
    return an empty frame: every failure is swallowed by the loop, and the
    [describe()] of the summary then raises [ValueError] on the frame
    without columns. *)
Theorem generate_features_no_features `{Externals}
    (transactions_df : DataFrame) (wallet_col : string) :
  first_present ["userWallet"; "user"; "address"; "userId"]%string
                (columns transactions_df) = Some wallet_col ->
  forallb Main.hashable (column (records transactions_df) wallet_col) = true ->
  (forall wallet,
     In wallet (column (records transactions_df) wallet_col) ->
     Main.is_null wallet = false ->
     exists e,
       Main.calculate_wallet_features
         (columns transactions_df)
         (filter (fun row => Main.key_eqb wallet (cell row wallet_col))
                 (records transactions_df))
       = Raise e) ->
  Main.generate_features transactions_df = Raise ValueError.
Proof.
  intros Hcol Hhash Hfail. unfold Main.generate_features.
  rewrite Hcol, Hhash. cbn [negb]. cbv zeta.
  rewrite flat_map_nil; [reflexivity|].
  intros wallet Hin. apply unique_In in Hin. apply filter_In in Hin as [Hin Hnn].
  apply negb_true_iff in Hnn.
  destruct (Hfail wallet Hin Hnn) as [e ->]. reflexivity.
Qed.

(** A frame whose only wallet has a timestamp that does not convert. *)
Definition frame_with_bad_timestamp : DataFrame := {|
  columns := ["userWallet"; "timestamp"]%string;
  records := [[("userWallet", JStr "0xA"); ("timestamp", JStr "yesterday")]%string]
|}.

Lemma generate_features_no_features_witness :
  @Main.generate_features example_externals frame_with_bad_timestamp = Raise ValueError.
Proof.
  apply (@generate_features_no_features example_externals
           frame_with_bad_timestamp "userWallet"%string).
  - reflexivity.
  - reflexivity.
  - intros wallet Hin _. simpl in Hin. destruct Hin as [<-|[]].
    exists ValueError. reflexivity.
Defined.

(** ** [src/main.py]: the temporal features *)

Lemma fold_min_spec (rest : list Z) : forall t : Z,
  In (fold_left Z.min rest t) (t :: rest) /\
  Forall (fun x => (fold_left Z.min rest t <= x)%Z) (t :: rest).
Proof.
  induction rest as [|a rest IH]; intros t.
  - simpl. split; [now left|]. repeat constructor. lia.
  - cbn [fold_left]. destruct (IH (Z.min t a)) as [Hin Hall]. split.
    + destruct Hin as [E|Hin]; [|now right; right].
      rewrite <- E. destruct (Z.min_spec t a) as [[_ ->]|[_ ->]]; [now left|right; now left].
    + inversion Hall as [|? ? Hm Hrest]; subst.
      constructor; [lia|]. constructor; [lia|exact Hrest].
Qed.

Lemma fold_max_spec (rest : list Z) : forall t : Z,
  In (fold_left Z.max rest t) (t :: rest) /\
  Forall (fun x => (x <= fold_left Z.max rest t)%Z) (t :: rest).
Proof.
  induction rest as [|a rest IH]; intros t.
  - simpl. split; [now left|]. repeat constructor. lia.
  - cbn [fold_left]. destruct (IH (Z.max t a)) as [Hin Hall]. split.
    + destruct Hin as [E|Hin]; [|now right; right].
      rewrite <- E. destruct (Z.max_spec t a) as [[_ ->]|[_ ->]]; [right; now left|now left].
    + inversion Hall as [|? ? Hm Hrest]; subst.
      constructor; [lia|]. constructor; [lia|exact Hrest].
Qed.

Lemma float_of_int_nonneg (z : Z) : (0 <= z)%Z -> (0 <=? Np.float_of_int z) = true.
Proof.
  intros Hz. apply leb_zero_spec. unfold Np.float_of_int.
  replace (0 <=? z)%Z with true by (symmetry; now apply Z.leb_le).
  rewrite of_uint63_spec. apply binary_normalize_nonneg.
  apply Uint63.to_Z_bounded.
Qed.

(** X20: the [wallet_age_days] that the post-processing of
    [generate_features] computes from a wallet's [first_activity] and
    [last_activity] is never negative: it is NaN when the wallet has no
    valid timestamp, and at least 0 otherwise (the minimum of the timestamps
    is at most their maximum, and neither division changes the sign). *)
Theorem wallet_age_days_nonnegative (timestamps : list Z) :
  exists age,
    Main.wallet_age_days (Main.VTime (Main.time_min timestamps))
                         (Main.VTime (Main.time_max timestamps))
    = Main.VFloat age /\
    (is_nan age = true \/ (0 <=? age) = true).
Proof.
  unfold Main.wallet_age_days, Main.time_min, Main.time_max.
  destruct (filter (fun t => negb (t =? Pd.iNaT)%Z) timestamps) as [|t rest].
  - eexists. split; [reflexivity|]. now left.
  - destruct ((fold_left Z.min rest t =? Pd.iNaT)%Z || (fold_left Z.max rest t =? Pd.iNaT)%Z).
    + eexists. split; [reflexivity|]. now left.
    + eexists. split; [reflexivity|]. right.
      destruct (fold_min_spec rest t) as [_ Hmin].
      destruct (fold_max_spec rest t) as [_ Hmax].
      inversion Hmin as [|? ? Hlo _]; subst. inversion Hmax as [|? ? Hhi _]; subst.
      unfold Pd.total_seconds.
      apply div_nonneg_finite; [|reflexivity|reflexivity].
      apply div_nonneg_finite; [|reflexivity|reflexivity].
      apply float_of_int_nonneg. lia.
Qed.

Lemma filter_perm {A : Type} (p : A -> bool) (l l' : list A) :
  Permutation l l' -> Permutation (filter p l) (filter p l').
Proof.
  induction 1 as [|x l l' _ IH|x y l|l l' l'' _ IH1 _ IH2]; cbn [filter].
  - constructor.
  - destruct (p x); [now constructor|exact IH].
  - destruct (p x), (p y); try reflexivity. constructor.
  - now transitivity (filter p l').
Qed.

Lemma time_min_perm (timestamps timestamps' : list Z) :
  Permutation timestamps timestamps' -> Main.time_min timestamps = Main.time_min timestamps'.
Proof.
  intros Hp. unfold Main.time_min.
  pose proof (filter_perm (fun t => negb (t =? Pd.iNaT)%Z) _ _ Hp) as Hf.
  destruct (filter _ timestamps) as [|t rest], (filter _ timestamps') as [|t' rest'].
  - reflexivity.
  - apply Permutation_nil in Hf. discriminate.
  - symmetry in Hf. apply Permutation_nil in Hf. discriminate.
  - destruct (fold_min_spec rest t) as [Hin Hall].
    destruct (fold_min_spec rest' t') as [Hin' Hall'].
    rewrite Forall_forall in Hall, Hall'.
    apply Z.le_antisymm.
    + apply Hall. eapply Permutation_in; [symmetry; exact Hf | exact Hin'].
    + apply Hall'. eapply Permutation_in; [exact Hf | exact Hin].
Qed.

Lemma time_max_perm (timestamps timestamps' : list Z) :
  Permutation timestamps timestamps' -> Main.time_max timestamps = Main.time_max timestamps'.
Proof.
  intros Hp. unfold Main.time_max.
  pose proof (filter_perm (fun t => negb (t =? Pd.iNaT)%Z) _ _ Hp) as Hf.
  destruct (filter _ timestamps) as [|t rest], (filter _ timestamps') as [|t' rest'].
  - reflexivity.
  - apply Permutation_nil in Hf. discriminate.
  - symmetry in Hf. apply Permutation_nil in Hf. discriminate.
  - destruct (fold_max_spec rest t) as [Hin Hall].
    destruct (fold_max_spec rest' t') as [Hin' Hall'].
    rewrite Forall_forall in Hall, Hall'.
    apply Z.le_antisymm.
    + apply Hall'. eapply Permutation_in; [exact Hf | exact Hin].
    + apply Hall. eapply Permutation_in; [symmetry; exact Hf | exact Hin'].
Qed.

(** X21: [first_activity], [last_activity] and [tx_entropy] of a wallet do
    not depend on the order of its transactions: the first two are a minimum
    and a maximum, and [calculate_entropy] sorts its argument. *)
Theorem temporal_features_order_independent `{Externals} (timestamps timestamps' : list Z) :
  Permutation timestamps timestamps' ->
  Main.time_min timestamps = Main.time_min timestamps' /\
  Main.time_max timestamps = Main.time_max timestamps' /\
  Main.calculate_entropy timestamps = Main.calculate_entropy timestamps'.
Proof.
  intros Hp. split; [now apply time_min_perm|]. split; [now apply time_max_perm|].
  unfold Main.calculate_entropy.
  rewrite (Permutation_length Hp), (sort_values_perm_eq _ _ Hp). reflexivity.
Qed.

Lemma temporal_features_order_independent_witness :
  @Main.time_min [30; 10; 20]%Z = Main.time_min [10; 20; 30]%Z /\
  Main.time_max [30; 10; 20]%Z = Main.time_max [10; 20; 30]%Z /\
  @Main.calculate_entropy example_externals [30; 10; 20]%Z
  = @Main.calculate_entropy example_externals [10; 20; 30]%Z.
Proof.
  apply (@temporal_features_order_independent example_externals).
  apply Permutation_cons_app with (l1 := [10; 20]%Z) (l2 := []). reflexivity.
Defined.

(** ** [src/main.py]: the rows of the features frame *)

Lemma union_keys_complete (ds : list (dict Main.fval)) :
  forall (seen : list string) (d : dict Main.fval) (k : string),
  In d ds -> In k (dict_keys d) -> In k (Main.union_keys seen ds).
Proof.
  induction ds as [|d0 rest IH]; intros seen d k Hd Hk; [contradiction|].
  cbn [Main.union_keys]. destruct Hd as [->|Hd]; [|eapply IH; eauto].
  apply union_keys_incl. apply in_or_app.
  destruct (has_column seen k) eqn:E.
  - left. now apply has_column_In.
  - right. apply filter_In. split; [exact Hk | now rewrite E].
Qed.

Lemma row_get_map (g : string -> Main.fval) (cols : list string) (c : string) :
  In c cols -> Main.row_get cols (map g cols) c = g c.
Proof.
  induction cols as [|k cols IH]; intros Hin; [contradiction|].
  cbn [map Main.row_get]. destruct (String.eqb c k) eqn:E.
  - apply String.eqb_eq in E. now subst.
  - destruct Hin as [->|Hin]; [rewrite String.eqb_refl in E; discriminate|].
    now apply IH.
Qed.

Lemma row_get_app (cols : list string) : forall (row : list Main.fval)
    (cols' : list string) (row' : list Main.fval) (c : string),
  List.length row = List.length cols -> In c cols ->
  Main.row_get (cols ++ cols') (row ++ row') c = Main.row_get cols row c.
Proof.
  induction cols as [|k cols IH]; intros row cols' row' c Hlen Hin; [contradiction|].
  destruct row as [|v row]; [discriminate|].
  cbn [app Main.row_get]. destruct (String.eqb c k) eqn:E; [reflexivity|].
  destruct Hin as [->|Hin]; [rewrite String.eqb_refl in E; discriminate|].
  apply IH; [simpl in Hlen; lia | exact Hin].
Qed.

Lemma calculate_wallet_features_total_txs_value `{Externals}
    (cols : list string) (txs : list (dict json)) (f : dict Main.fval) :
  Main.calculate_wallet_features cols txs = Ok f ->
  dict_get f "total_txs" = Some (Main.VInt (Z.of_nat (List.length txs))).
Proof.
  unfold Main.calculate_wallet_features.
  set (amounts := if has_column cols "actionData" then _ else _).
  assert (Ha : exists tail,
             amounts = ("total_txs"%string, Main.VInt (Z.of_nat (List.length txs))) :: tail).
  { subst amounts. destruct (has_column cols "actionData"); [|eauto].
    destruct (traverse _ _); cbn [app]; eauto. }
  destruct Ha as [tail ->].
  destruct (first_present ["timestamp"; "block_timestamp"; "createdAt"]%string cols).
  - destruct (traverse to_datetime _); [|discriminate].
    destruct (first_present ["action"; "type"]%string cols);
      [destruct (has_column (dict_keys _) "total_usd_volume")|];
      (destruct (has_column cols "txHash");
       [destruct (Main.nunique _); [|discriminate]|]);
      intros [= <-]; reflexivity.
  - destruct (first_present ["action"; "type"]%string cols);
      [destruct (has_column (dict_keys _) "total_usd_volume")|];
      (destruct (has_column cols "txHash");
       [destruct (Main.nunique _); [|discriminate]|]);
      intros [= <-]; reflexivity.
Qed.

(** X22: every row of the frame [generate_features] returns belongs to a
    wallet: its ['wallet'] cell is a value of the wallet column that is not
    missing, and its ['total_txs'] cell is the number of transactions of the
    input whose wallet is that value.  Transactions without a wallet are
    counted under no row. *)
Theorem generate_features_rows `{Externals}
    (transactions_df : DataFrame) (features_df : Main.FeaturesFrame)
    (wallet_col : string) :
  first_present ["userWallet"; "user"; "address"; "userId"]%string
                (columns transactions_df) = Some wallet_col ->
  Main.generate_features transactions_df = Ok features_df ->
  forall row, In row (Main.f_rows features_df) ->
    exists wallet,
      In wallet (column (records transactions_df) wallet_col) /\
      Main.is_null wallet = false /\
      Main.row_get (Main.f_columns features_df) row "wallet" = Main.VKey wallet /\
      Main.row_get (Main.f_columns features_df) row "total_txs"
      = Main.VInt (Z.of_nat (List.length
                     (filter (fun r => Main.key_eqb wallet (cell r wallet_col))
                             (records transactions_df)))).
Proof.
  intros Hcol. unfold Main.generate_features. rewrite Hcol.
  destruct (negb (forallb Main.hashable _)); [discriminate|].
  set (features := flat_map _ _).
  assert (Hkeys : forall d, In d features ->
            exists wallet,
              In wallet (column (records transactions_df) wallet_col) /\
              Main.is_null wallet = false /\
              dict_get d "wallet" = Some (Main.VKey wallet) /\
              dict_get d "total_txs"
              = Some (Main.VInt (Z.of_nat (List.length
                         (filter (fun r => Main.key_eqb wallet (cell r wallet_col))
                                 (records transactions_df)))))).
  { intros d Hd. subst features. apply in_flat_map in Hd as (wallet & Hw & Hd).
    destruct (Main.calculate_wallet_features _ _) as [f|e] eqn:Ef; [|contradiction].
    destruct Hd as [<-|[]]. exists wallet.
    apply unique_In in Hw. apply filter_In in Hw as [Hw Hnn].
    apply negb_true_iff in Hnn. repeat split; try assumption.
    cbn [dict_get]. change (String.eqb "total_txs" "wallet") with false. cbv iota.
    eapply calculate_wallet_features_total_txs_value; eauto. }
  clearbody features.
  assert (Hrows : forall row, In row (Main.f_rows (Main.DataFrame_of_dicts features)) ->
            List.length row = List.length (Main.f_columns (Main.DataFrame_of_dicts features)) /\
            In "wallet"%string (Main.f_columns (Main.DataFrame_of_dicts features)) /\
            In "total_txs"%string (Main.f_columns (Main.DataFrame_of_dicts features)) /\
            exists wallet,
              In wallet (column (records transactions_df) wallet_col) /\
              Main.is_null wallet = false /\
              Main.row_get (Main.f_columns (Main.DataFrame_of_dicts features)) row "wallet"
              = Main.VKey wallet /\
              Main.row_get (Main.f_columns (Main.DataFrame_of_dicts features)) row "total_txs"
              = Main.VInt (Z.of_nat (List.length
                             (filter (fun r => Main.key_eqb wallet (cell r wallet_col))
                                     (records transactions_df))))).
  { intros row Hrow. split; [now apply DataFrame_of_dicts_rectangular|].
    unfold Main.DataFrame_of_dicts in *. cbn [Main.f_rows Main.f_columns] in *.
    apply in_map_iff in Hrow as (d & <- & Hd).
    destruct (Hkeys d Hd) as (wallet & Hw & Hnn & Gw & Gt).
    assert (Kw : In "wallet"%string (Main.union_keys [] features)).
    { apply (union_keys_complete features [] d); [exact Hd|].
      clear -Gw. induction d as [|[k v] d IH]; [discriminate|].
      cbn [dict_get] in Gw. cbn [dict_keys map fst].
      destruct (String.eqb "wallet" k) eqn:E.
      - left. symmetry. now apply String.eqb_eq.
      - right. now apply IH. }
    assert (Kt : In "total_txs"%string (Main.union_keys [] features)).
    { apply (union_keys_complete features [] d); [exact Hd|].
      clear -Gt. induction d as [|[k v] d IH]; [discriminate|].
      cbn [dict_get] in Gt. cbn [dict_keys map fst].
      destruct (String.eqb "total_txs" k) eqn:E.
      - left. symmetry. now apply String.eqb_eq.
      - right. now apply IH. }
    split; [exact Kw|]. split; [exact Kt|].
    exists wallet. split; [exact Hw|]. split; [exact Hnn|].
    rewrite !row_get_map by assumption. rewrite Gw, Gt. split; reflexivity. }
  destruct (has_column _ "first_activity" && has_column _ "last_activity").
  - cbn [Main.f_columns Main.f_rows].
    destruct (Main.f_columns (Main.DataFrame_of_dicts features) ++ ["wallet_age_days"%string])
      as [|c cs] eqn:Ec; [discriminate|].
    intros [= <-]. cbn [Main.f_columns Main.f_rows]. rewrite <- Ec.
    intros row Hrow. apply in_map_iff in Hrow as (r & <- & Hr).
    destruct (Hrows r Hr) as (Hlen & Kw & Kt & wallet & Hw & Hnn & Gw & Gt).
    exists wallet. rewrite !row_get_app by assumption. auto.
  - destruct (Main.f_columns (Main.DataFrame_of_dicts features)) as [|c cs] eqn:Ec;
      [discriminate|].
    intros [= <-]. rewrite Ec. intros row Hrow.
    destruct (Hrows row Hrow) as (_ & _ & _ & Hex). exact Hex.
Qed.

Lemma generate_features_rows_witness :
  exists wallet,
    In wallet (column (records frame_with_amount) "userWallet") /\
    Main.is_null wallet = false /\
    Main.row_get (Main.f_columns features_with_amount)
                 (hd [] (Main.f_rows features_with_amount)) "wallet"
    = Main.VKey wallet /\
    Main.row_get (Main.f_columns features_with_amount)
                 (hd [] (Main.f_rows features_with_amount)) "total_txs"
    = Main.VInt (Z.of_nat (List.length
                   (filter (fun r => Main.key_eqb wallet (cell r "userWallet"))
                           (records frame_with_amount)))).
Proof.
  apply (@generate_features_rows example_externals frame_with_amount
           features_with_amount "userWallet"%string).
  - reflexivity.
  - vm_compute. reflexivity.
  - left. reflexivity.
Defined.
